(** * Behavioural cloning: dataset preparation and training loop

    A shallow embedding of [ch10/behavioral_cloning/train.py]:
    the dataset preparer [read_data], the splitter [create_datasets]
    and the epoch loop [train].

    Conventions of the embedding.
    - A Python exception is a value [Raise e] of the [result] type;
      nothing in the file catches exceptions, so every sequencing is
      the error-propagating [bind].
    - The two random number generators ([random.shuffle] and
      [np.random.rand]) are an explicit record [rng] handed to each
      call of [read_data].
    - Console output ([print]) is not modelled.
    - The numeric work of the framework (forward and backward passes,
      optimiser steps) is an opaque parameter of the training loop. *)

From Stdlib Require Import String ZArith List Bool Lia Permutation.
From Stdlib Require Import Floats.SpecFloat.
Import ListNotations.
Open Scope Z_scope.

(** ** Exceptions and results *)

Inductive exn : Type :=
| FileNotFoundError   (* gzip.open on an absent file *)
| UnpicklingError     (* pickle.load on bytes that are not a pickle *)
| IndexError          (* tuple index out of range; a mask of too many axes *)
| ValueError          (* wrong number of values to unpack; list.index miss *)
| AxisError           (* numpy: operand shapes do not fit the operation *)
| FrameworkError.     (* an exception raised inside the torch calls *)

Inductive result (A : Type) : Type :=
| Ok (a : A)
| Raise (e : exn).
Arguments Ok {A} a.
Arguments Raise {A} e.

Definition bind {A B : Type} (r : result A) (k : A -> result B) : result B :=
  match r with
  | Ok a => k a
  | Raise e => Raise e
  end.

Declare Scope result_scope.
Delimit Scope result_scope with result.
Notation "x <- r ;; k" := (bind r (fun x => k))
  (at level 100, r at next level, right associativity) : result_scope.
Notation "' p <- r ;; k" := (bind r (fun p => k))
  (at level 100, p pattern, r at next level, right associativity) : result_scope.

(** ** Data model *)

(** An action vector: (steering, gas, brake).  The code only compares
    the components for exact equality with the integer literals of the
    patterns; they are integers here. *)
Definition vec3 : Type := (Z * Z * Z)%type.

Definition vec3_eqb (u v : vec3) : bool :=
  let '(u0, u1, u2) := u in
  let '(v0, v1, v2) := v in
  (u0 =? v0) && (u1 =? v1) && (u2 =? v2).

Definition vec3_eq_dec (u v : vec3) : {u = v} + {u <> v}.
Proof. repeat decide equality. Defined.

(** The patterns written as literals in [read_data]. *)
Definition left_brake : vec3 := (-1, 0, 1).
Definition right_brake : vec3 := (1, 0, 1).
Definition brake : vec3 := (0, 0, 1).
Definition accelerate : vec3 := (0, 1, 0).

(** Line 36: the three rare patterns, in the order the inner loop visits them. *)
Definition rare_events : list vec3 := [left_brake; right_brake; brake].

Definition is_rare (v : vec3) : bool := existsb (vec3_eqb v) rare_events.

(** Module constants (lines 15-22). *)
Definition EPOCHS : nat := 30.
Definition MULTIPLY_RARE_EVENTS : Z := 30.
Definition DATA_DIR : string := "data".
Definition MODEL_FILE : string := "model.pt".

Section Preparer.

(** A recorded state: an image array.  Opaque to this code. *)
Variable State : Type.
Variable State_eq_dec : forall s t : State, {s = t} + {s <> t}.

(** The enumeration of action patterns imported from the [util]
    module, whose source is not part of the files at hand: it is a
    parameter of everything below. *)
Variable available_actions : list vec3.

(** One component of a recorded tuple: the image of the state, the
    action vector, or an object that is no array (the reward, the
    terminal flag, the info).  These are the components the recorder
    writes; arrays of other shapes (a vector of one component, frames
    of unequal sizes) are not part of this data model. *)
Inductive field : Type :=
| Img (s : State)      (* an image array: height, width, channel *)
| Act (a : vec3)       (* a numeric vector of three components *)
| Obj (o : Z).         (* a scalar or any other object that is no array *)

(** A recorded tuple, as unpickled: any number of components. *)
Definition record : Type := list field.

Definition field_eq_dec (f g : field) : {f = g} + {f <> g}.
Proof.
  decide equality; auto using State_eq_dec, vec3_eq_dec, Z.eq_dec.
Defined.

Definition record_eq_dec : forall d e : record, {d = e} + {d <> e} :=
  list_eq_dec field_eq_dec.

(** [d[i]] on a tuple. *)
Definition getitem (d : record) (i : nat) : result field :=
  match nth_error d i with
  | Some f => Ok f
  | None => Raise IndexError
  end.

(** [np.array_equal(f, a)] for a literal pattern [a]: equal shape and
    equal components. *)
Definition array_equal (f : field) (a : vec3) : bool :=
  match f with
  | Act v => vec3_eqb v a
  | _ => false
  end.

(** The action vector of a tuple, when its second component is one. *)
Definition action_of (d : record) : option vec3 :=
  match nth_error d 1 with
  | Some (Act v) => Some v
  | _ => None
  end.

(** *** Inflation (lines 33-40) *)

(** Lines 36-38, for one [d]: the inner loop over the rare patterns. *)
Definition inflate_one (m : Z) (d : record) (data_copy : list record)
  : result (list record) :=
  (f <- getitem d 1 ;;
   Ok (fold_left
         (fun acc a =>
            if array_equal f a then acc ++ repeat d (Z.to_nat m) else acc)
         rare_events data_copy))%result.

(** Line 35: the outer loop runs over the original list, appending
    to the copy. *)
Fixpoint inflate_loop (m : Z) (ds : list record) (data_copy : list record)
  : result (list record) :=
  match ds with
  | [] => Ok data_copy
  | d :: ds' =>
      (data_copy' <- inflate_one m d data_copy ;;
       inflate_loop m ds' data_copy')%result
  end.

Definition inflate (m : Z) (data : list record) : result (list record) :=
  if 1 <? m then inflate_loop m data data else Ok data.

(** *** Randomness *)

(** What one call of [read_data] draws from the two generators.
    [shuffle] is the permutation [random.shuffle] applies; [rand k] is
    the array [np.random.rand(k)], each draw [u / 2^53] given by its
    numerator [u]. *)
Record rng : Type := {
  shuffle : list record -> list record;
  shuffle_perm : forall l, Permutation (shuffle l) l;
  rand : nat -> list Z;
  rand_length : forall k, length (rand k) = k;
  rand_range : forall k u, In u (rand k) -> 0 <= u < 2 ^ 53
}.

(** The binary64 constant [0.7] is [TH / 2^53]. *)
Definition TH : Z := 6305039478318694.

(** [u / 2^53 > 0.7], the comparison of line 59. *)
Definition exceeds_0_7 (u : Z) : bool := TH <? u.

(** *** The input file (lines 27-28) *)

Inductive data_file : Type :=
| file_missing                        (* no file at data/data.gzip *)
| file_corrupt                        (* a file that does not unpickle *)
| file_pickle (data : list record).   (* a pickled list of tuples *)

Definition load (f : data_file) : result (list record) :=
  match f with
  | file_missing => Raise FileNotFoundError
  | file_corrupt => Raise UnpicklingError
  | file_pickle data => Ok data
  end.

(** *** Columns (line 45) *)

(** The number of tuples [zip( *data )] yields: the length of the
    shortest record, none for an empty list. *)
Definition zip_width (data : list record) : nat :=
  match data with
  | [] => 0%nat
  | d :: ds => fold_left (fun w e => Nat.min w (length e)) ds (length d)
  end.

Definition column (i : nat) (data : list record) : list field :=
  map (fun d => nth i d (Obj 0)) data.

(** [states, actions, _, _, _ = map(np.array, zip( *data ))]: the
    unpacking needs exactly five columns. *)
Definition unzip5 (data : list record) : result (list field * list field) :=
  if (zip_width data =? 5)%nat
  then Ok (column 0 data, column 1 data)
  else Raise ValueError.

(** *** numpy arrays *)

Definition is_img (f : field) : bool :=
  match f with Img _ => true | _ => false end.

(** The array of states: its rows, and whether numpy made it an array
    of four axes (sample, height, width, channel), which it does when
    every row is an image. *)
Record ndarray : Type := {
  rows : list field;
  ndim4 : bool
}.

Definition np_array (col : list field) : ndarray :=
  {| rows := col; ndim4 := forallb is_img col |}.

(** [xs[mask]]: the entries at the positions where [mask] is true.
    The two always have the same length here. *)
Fixpoint select {A : Type} (mask : list bool) (xs : list A) : list A :=
  match mask, xs with
  | b :: mask', x :: xs' =>
      if b then x :: select mask' xs' else select mask' xs'
  | _, _ => []
  end.

Definition select_rows (mask : list bool) (x : ndarray) : ndarray :=
  {| rows := select mask (rows x); ndim4 := ndim4 x |}.

(** The [N x 3] array of actions, when every entry of the column is a
    vector of three components. *)
Fixpoint action_rows (col : list field) : option (list vec3) :=
  match col with
  | [] => Some []
  | Act v :: col' =>
      match action_rows col' with
      | Some vs => Some (v :: vs)
      | None => None
      end
  | _ :: _ => None
  end.

(** The mask [np.all(actions == a, axis=1)] of line 50, as an index
    of [act_classes].  On a column of frames (one channel each, as the
    network takes them) the comparison broadcasts over the channel and
    the reduction leaves a mask of three axes, which [act_classes]
    refuses as an index.  On any other column that is not an [N x 3]
    array the comparison has no second axis to reduce. *)
Definition rows_equal (actions : list field) (a : vec3) : result (list bool) :=
  match action_rows actions with
  | Some vs => Ok (map (fun v => vec3_eqb v a) vs)
  | None => if forallb is_img actions then Raise IndexError else Raise AxisError
  end.

(** [arr[mask] = i]. *)
Fixpoint assign_where (arr : list Z) (mask : list bool) (i : Z) : list Z :=
  match arr, mask with
  | c :: arr', b :: mask' => (if b then i else c) :: assign_where arr' mask' i
  | _, _ => arr
  end.

(** *** Label derivation (lines 48-50) *)

(** The loop over [enumerate(available_actions)], from index [i] on. *)
Fixpoint label_loop (actions : list field) (patterns : list vec3) (i : Z)
  (act_classes : list Z) : result (list Z) :=
  match patterns with
  | [] => Ok act_classes
  | a :: patterns' =>
      (mask <- rows_equal actions a ;;
       label_loop actions patterns' (i + 1) (assign_where act_classes mask i))%result
  end.

Definition derive_classes (actions : list field) : result (list Z) :=
  label_loop actions available_actions 0 (repeat (-1) (length actions)).

(** [act_classes != c]. *)
Definition not_equal (act_classes : list Z) (c : Z) : list bool :=
  map (fun x => negb (x =? c)) act_classes.

(** *** Down-sampling (lines 57-62) *)

(** [l.index(v)]: the first position of [v], counted from [i]. *)
Fixpoint index_from (v : vec3) (l : list vec3) (i : Z) : result Z :=
  match l with
  | [] => Raise ValueError
  | a :: l' => if vec3_eqb a v then Ok i else index_from v l' (i + 1)
  end.

Definition index (l : list vec3) (v : vec3) : result Z := index_from v l 0.

(** [mask[~mask] = vals]: the false positions receive [vals] in order. *)
Fixpoint fill_false (mask vals : list bool) : list bool :=
  match mask with
  | [] => []
  | true :: mask' => true :: fill_false mask' vals
  | false :: mask' =>
      match vals with
      | v :: vals' => v :: fill_false mask' vals'
      | [] => false :: fill_false mask' []
      end
  end.

(** [act_classes[~non_accel].size]. *)
Definition count_false (mask : list bool) : nat :=
  length (filter negb mask).

(** Lines 57-62, on the arrays left by the filtering: some of the
    samples of the accelerate class are dropped. *)
Definition drop_accelerations (g : rng) (states : ndarray) (act_classes : list Z)
  : result (ndarray * list Z) :=
  (accel <- index available_actions accelerate ;;
   let non_accel := not_equal act_classes accel in
   let drop_mask := map exceeds_0_7 (rand g (count_false non_accel)) in
   let non_accel := fill_false non_accel drop_mask in
   Ok (select_rows non_accel states, select non_accel act_classes))%result.

(** *** The dataset preparer (lines 25-70) *)

(** [read_data] with the multiplier as an argument. *)
Definition read_data_with (m : Z) (f : data_file) (g : rng)
  : result (ndarray * list Z) :=
  (data <- load f ;;
   data <- inflate m data ;;
   let data := shuffle g data in
   '(states, actions) <- unzip5 data ;;
   act_classes <- derive_classes actions ;;
   let states := select_rows (not_equal act_classes (-1)) (np_array states) in
   let act_classes := select (not_equal act_classes (-1)) act_classes in
   drop_accelerations g states act_classes)%result.

Definition read_data : data_file -> rng -> result (ndarray * list Z) :=
  read_data_with MULTIPLY_RARE_EVENTS.

End Preparer.

Arguments Img {State} s.
Arguments Act {State} a.
Arguments Obj {State} o.
Arguments getitem {State} d i.
Arguments array_equal {State} f a.
Arguments action_of {State} d.
Arguments inflate_one {State} m d data_copy.
Arguments inflate_loop {State} m ds data_copy.
Arguments inflate {State} m data.
Arguments shuffle {State} r l.
Arguments shuffle_perm {State} r l.
Arguments rand {State} r k.
Arguments rand_length {State} r k.
Arguments rand_range {State} r k u.
Arguments file_missing {State}.
Arguments file_corrupt {State}.
Arguments file_pickle {State} data.
Arguments load {State} f.
Arguments zip_width {State} data.
Arguments column {State} i data.
Arguments unzip5 {State} data.
Arguments is_img {State} f.
Arguments rows {State} n.
Arguments ndim4 {State} n.
Arguments np_array {State} col.
Arguments select_rows {State} mask x.
Arguments action_rows {State} col.
Arguments rows_equal {State} actions a.
Arguments label_loop {State} actions patterns i act_classes.
Arguments derive_classes {State} available_actions actions.
Arguments drop_accelerations {State} available_actions g states act_classes.
Arguments read_data_with {State} available_actions m f g.
Arguments read_data {State} available_actions f g.

(** ** The training side (lines 76-250) *)

Definition BATCH_SIZE : nat := 32.

(** [TRAIN_VAL_SPLIT = 0.85]: the binary64 number nearest to 85/100,
    which is [7656119366529843 / 2^53]. *)
Definition TRAIN_VAL_SPLIT : spec_float :=
  S754_finite false 7656119366529843 (-53).

(** binary64. *)
Definition prec : Z := 53.
Definition emax : Z := 1024.

(** The conversion of a Python [int] to [float], as [int * float]
    performs it on its left operand. *)
Definition float_of_int (n : Z) : spec_float :=
  binary_normalize prec emax n 0 false.

(** [int(x)] on a float: truncation towards zero.  The non-finite
    cases, on which Python raises, are out of reach of a product of a
    length by [TRAIN_VAL_SPLIT]. *)
Definition int_of_float (x : spec_float) : Z :=
  match x with
  | S754_finite s m e =>
      cond_Zopp s (if 0 <=? e then Z.shiftl (Zpos m) e
                   else Z.shiftr (Zpos m) (- e))
  | _ => 0
  end.

(** [int(n * TRAIN_VAL_SPLIT)] for a length [n]. *)
Definition split_index (n : nat) : nat :=
  Z.to_nat
    (int_of_float (SFmul prec emax (float_of_int (Z.of_nat n)) TRAIN_VAL_SPLIT)).

(** [os.path.join(a, b)] on POSIX, for relative, non-empty parts. *)
Definition path_join (a b : string) : string := (a ++ "/" ++ b)%string.

Section Training.

Variable State : Type.
Variable available_actions : list vec3.

(** [np.moveaxis(x, 3, 1)], on one image. *)
Variable channel_first : State -> State.

(** The network together with its optimiser state, the weights
    [state_dict] extracts from it, and the loader objects of the
    framework. *)
Variable Model : Type.
Variable Weights : Type.
Variable Loader : Type.
Variable state_dict : Model -> Weights.

(** A dataset handed to the framework: states paired with labels. *)
Definition dataset : Type := list (field State * Z).

(** The framework calls.  Each may raise.
    [DataLoader ds batch_size shuffle num_workers] is the constructor
    of a loader.  [train_epoch e model loader] is the function
    [train_epoch] as called during epoch [e]: the device, the loss
    function and the optimiser are part of [model], and since the
    batches are drawn at random the outcome may differ from epoch to
    epoch.  [test model loader] leaves the model as it is.
    [summary model] is [summary(model, (1, 84, 84))]: it prints the
    layers after a forward pass through the network, which leaves the
    model changed (the running statistics of the normalisation
    layers). *)
Variable summary : Model -> result Model.
Variable DataLoader : dataset -> nat -> bool -> nat -> result Loader.
Variable train_epoch : nat -> Model -> Loader -> result Model.
Variable test : Model -> Loader -> result unit.

(** The recording read by this run, and the randomness seen by the
    successive calls of [read_data]. *)
Variable input : data_file State.
Variable rngs : nat -> rng State.

(** *** What a run does to the world *)

Inductive event : Type :=
| ev_read_data                   (* read_data is entered *)
| ev_train_epoch (epoch : nat)   (* train_epoch is entered *)
| ev_test (epoch : nat)          (* test is entered *)
| ev_save (path : string).       (* torch.save has written the file *)

Record world : Type := {
  trace : list event;             (* what happened so far, oldest first *)
  reads : nat;                    (* calls of read_data so far *)
  model_file : option Weights;    (* the content of data/model.pt *)
  writes : list (string * Weights) (* every torch.save so far: path, content *)
}.

Definition prog (A : Type) : Type := world -> world * result A.

Definition ret {A : Type} (a : A) : prog A := fun w => (w, Ok a).

Definition pbind {A B : Type} (p : prog A) (k : A -> prog B) : prog B :=
  fun w =>
    match p w with
    | (w', Ok a) => k a w'
    | (w', Raise e) => (w', Raise e)
    end.

Definition lift {A : Type} (r : result A) : prog A := fun w => (w, r).

Definition emit (ev : event) : prog unit :=
  fun w => ({| trace := trace w ++ [ev];
               reads := reads w;
               model_file := model_file w;
               writes := writes w |}, Ok tt).

Declare Scope prog_scope.
Delimit Scope prog_scope with prog.
Notation "x <- p ;; k" := (pbind p (fun x => k))
  (at level 100, p at next level, right associativity) : prog_scope.
Notation "' q <- p ;; k" := (pbind p (fun q => k))
  (at level 100, q pattern, p at next level, right associativity) : prog_scope.
Notation "p ;; k" := (pbind p (fun _ => k))
  (at level 100, right associativity) : prog_scope.

(** A call of [read_data]: it consumes the next randomness. *)
Definition read_data_call : prog (ndarray State * list Z) :=
  fun w =>
    ({| trace := trace w ++ [ev_read_data];
        reads := S (reads w);
        model_file := model_file w;
        writes := writes w |},
     read_data available_actions input (rngs (reads w))).

(** [torch.save(model.state_dict(), model_path)], taken to succeed:
    the file at the checkpoint path now holds the whole [state_dict]
    of the model. *)
Definition save (model : Model) (path : string) : prog unit :=
  fun w =>
    ({| trace := trace w ++ [ev_save path];
        reads := reads w;
        model_file := Some (state_dict model);
        writes := writes w ++ [(path, state_dict model)] |}, Ok tt).

(** Line 73: the statement at module level, run when the module is
    loaded; its value is discarded. *)
Definition module_body : prog unit :=
  (read_data_call ;; ret tt)%prog.

(** *** create_datasets (lines 76-120) *)

Definition moveaxis_3_1 (x : ndarray State) : result (list (field State)) :=
  if ndim4 x
  then Ok (map (fun f => match f with
                         | Img s => Img (channel_first s)
                         | other => other
                         end) (rows x))
  else Raise AxisError.

(** Lines 93-113: the two datasets built from what [read_data] returned. *)
Definition split_datasets (xy : ndarray State * list Z) : result (dataset * dataset) :=
  let '(x, y) := xy in
  (x <- moveaxis_3_1 x ;;
   let x_train := firstn (split_index (length x)) x in
   let y_train := firstn (split_index (length y)) y in
   let x_test := skipn (length x_train) x in
   let y_test := skipn (length y_train) y in
   Ok (combine x_train y_train, combine x_test y_test))%result.

Definition create_datasets : prog (Loader * Loader) :=
  (xy <- read_data_call ;;
   '(train_set, test_set) <- lift (split_datasets xy) ;;
   train_loader <- lift (DataLoader train_set BATCH_SIZE true 2%nat) ;;
   val_order <- lift (DataLoader test_set BATCH_SIZE false 2%nat) ;;
   ret (train_loader, val_order))%prog.

(** *** train (lines 228-250) *)

(** The body of the [for epoch in range(EPOCHS)] loop, over the epochs
    still to run.  [train_epoch] updates the model in place. *)
Fixpoint epoch_loop (epochs : list nat) (model : Model)
  (train_loader val_order : Loader) : prog unit :=
  match epochs with
  | [] => ret tt
  | epoch :: epochs' =>
      (emit (ev_train_epoch epoch) ;;
       model' <- lift (train_epoch epoch model train_loader) ;;
       emit (ev_test epoch) ;;
       lift (test model' val_order) ;;
       save model' (path_join DATA_DIR MODEL_FILE) ;;
       epoch_loop epochs' model' train_loader val_order)%prog
  end.

Definition train (model : Model) : prog unit :=
  (model <- lift (summary model) ;;
   '(train_loader, val_order) <- create_datasets ;;
   epoch_loop (seq 0 EPOCHS) model train_loader val_order)%prog.

(** A run that trains: the module is loaded, then [train] is called. *)
Definition run (model : Model) : prog unit :=
  (module_body ;; train model)%prog.

End Training.

Arguments dataset State : clear implicits.
Arguments ret {Weights A} a.
Arguments pbind {Weights A B} p k.
Arguments lift {Weights A} r.
Arguments emit {Weights} ev.
Arguments save {Model Weights} state_dict model path.
Arguments epoch_loop {Model Weights Loader} state_dict train_epoch test
  epochs model train_loader val_order.
Arguments world : clear implicits.
Arguments trace {Weights} w.
Arguments reads {Weights} w.
Arguments model_file {Weights} w.
Arguments writes {Weights} w.

(** ** Functions used to state the properties *)

Section Readings.

Variable State : Type.
Variable available_actions : list vec3.

(** Whether the action of a tuple is one of the rare patterns. *)
Definition rare_record (d : record State) : bool :=
  match action_of d with
  | Some v => is_rare v
  | None => false
  end.

(** The copies line 38 appends for one tuple. *)
Definition extras (m : Z) (d : record State) : list (record State) :=
  if rare_record d then repeat d (Z.to_nat m) else [].

(** What the labelling loop leaves in the cell of a row [v] that held
    [c] before the patterns were visited from index [i] on. *)
Fixpoint classify_from (patterns : list vec3) (i : Z) (c : Z) (v : vec3) : Z :=
  match patterns with
  | [] => c
  | a :: patterns' =>
      classify_from patterns' (i + 1) (if vec3_eqb v a then i else c) v
  end.

(** The class label of a tuple: [-1] is the sentinel. *)
Definition label_of (d : record State) : Z :=
  match action_of d with
  | Some v => classify_from available_actions 0 (-1) v
  | None => -1
  end.

(** The samples two parallel arrays stand for. *)
Definition samples (states : ndarray State) (act_classes : list Z)
  : list (field State * Z) :=
  combine (rows states) act_classes.

Definition has_class (c : Z) (s : field State * Z) : bool := snd s =? c.

(** The input conditions under which the preparer cannot succeed: no
    file, a file that does not unpickle, an empty recording, a tuple
    of fewer than five components, or a tuple whose second component
    is not an action vector (it is missing, an image, or no array at
    all). *)
Definition failing_input (f : data_file State) : Prop :=
  f = file_missing \/
  f = file_corrupt \/
  exists data,
    f = file_pickle data /\
    (data = [] \/
     Exists (fun d => (length d < 5)%nat \/ action_of d = None) data).

(** The events of one completed epoch. *)
Definition epoch_events (epoch : nat) : list event :=
  [ev_train_epoch epoch; ev_test epoch; ev_save (path_join DATA_DIR MODEL_FILE)].

Definition count_reads (evs : list event) : nat :=
  length (filter (fun ev => match ev with ev_read_data => true | _ => false end) evs).

End Readings.

Arguments rare_record {State} d.
Arguments extras {State} m d.
Arguments label_of {State} available_actions d.
Arguments samples {State} states act_classes.
Arguments has_class {State} c s.
Arguments failing_input {State} f.

(** ** Further parts of the file *)

(** *** The numbers [read_data] prints (lines 64-68) *)

(** [act_classes[act_classes == i].size]. *)
Definition class_count (act_classes : list Z) (i : Z) : nat :=
  length (filter (fun c => c =? i) act_classes).

(** The counts printed by the loop over [enumerate(available_actions)],
    one per index. *)
Definition printed_counts (available_actions : list vec3) (act_classes : list Z)
  : list nat :=
  map (fun i => class_count act_classes (Z.of_nat i))
      (seq 0 (length available_actions)).

(** [len(act_classes)], printed as the total. *)
Definition printed_total (act_classes : list Z) : nat := length act_classes.

(** *** Counting the tuples of a recording *)

(** How many tuples of the recording are given the label [c]. *)
Definition occurrences {State : Type} (available_actions : list vec3) (c : Z)
  (data : list (record State)) : nat :=
  length (filter (fun d => label_of available_actions d =? c) data).

(** How many of them have a rare action. *)
Definition rare_occurrences {State : Type} (available_actions : list vec3) (c : Z)
  (data : list (record State)) : nat :=
  length (filter (fun d => (label_of available_actions d =? c) && rare_record d) data).

(** The copies the inflation makes of a rare tuple under the multiplier
    [m]: none unless [m > 1]. *)
Definition copies (m : Z) : nat := if 1 <? m then Z.to_nat m else 0%nat.

(** *** The model a run of epochs ends with *)

(** The model after the given epochs, each [train_epoch] working on
    the model the previous one left. *)
Fixpoint after_epochs {Model Loader : Type}
  (train_epoch : nat -> Model -> Loader -> result Model)
  (train_loader : Loader) (epochs : list nat) (model : Model) : result Model :=
  match epochs with
  | [] => Ok model
  | epoch :: epochs' =>
      (model' <- train_epoch epoch model train_loader ;;
       after_epochs train_epoch train_loader epochs' model')%result
  end.

Definition count_saves (evs : list event) : nat :=
  length (filter (fun ev => match ev with ev_save _ => true | _ => false end) evs).

(** *** build_network (lines 123-157) *)

(** The layers the file puts in the network, with the arguments it
    gives to their constructors.  [Flatten] is the class of the file
    (lines 126-133); the others are the framework's. *)
Inductive layer : Type :=
| Conv2d (in_channels out_channels kernel_size stride : nat)
| BatchNorm2d (num_features : nat)
| ELU
| Dropout2d (p : spec_float)
| Flatten
| BatchNorm1d (num_features : nat)
| Dropout (p : spec_float)
| Linear (in_features out_features : nat).

(** The binary64 number 0.5, the argument of [Dropout2d] and the
    default of [Dropout]. *)
Definition one_half : spec_float := S754_finite false 4503599627370496 (-53).

Definition build_network (available_actions : list vec3) : list layer :=
  [ Conv2d 1 32 8 4;
    BatchNorm2d 32;
    ELU;
    Dropout2d one_half;
    Conv2d 32 64 4 2;
    BatchNorm2d 64;
    ELU;
    Dropout2d one_half;
    Conv2d 64 64 3 1;
    ELU;
    Flatten;
    BatchNorm1d (64 * 7 * 7);
    Dropout one_half;
    Linear (64 * 7 * 7) 120;
    ELU;
    BatchNorm1d 120;
    Dropout one_half;
    Linear 120 (length available_actions) ].

(** The shape of a tensor: the sizes of its axes. *)
Definition shape : Type := list nat.

(** The size a convolution without padding leaves of an axis of size
    [h]: [floor((h - k) / s) + 1]. *)
Definition conv_size (h kernel_size stride : nat) : nat :=
  ((h - kernel_size) / stride + 1)%nat.

(** Whether a batch normalisation in training mode refuses the shape:
    it needs more than one value per feature, the values being those
    of all axes but the second. *)
Definition one_value_per_channel (s : shape) : bool :=
  match s with
  | n :: _ :: rest => (fold_right Nat.mul n rest =? 1)%nat
  | _ => false
  end.

(** The shape a layer gives to a tensor of shape [s], by the shape
    rule of the layer; [None] where the layer raises.  [training] is
    the mode of the network: [model.train()] in [train_epoch],
    [model.eval()] in [test].  A convolution takes a batch
    [n; c; h; w] or a single [c; h; w] with [c] its number of input
    channels and no axis shorter than the kernel; the batch
    normalisations take the number of features they were built for on
    the second axis and, in training mode, more than one value per
    feature; [Linear] takes its number of input features on the last
    axis.  [Flatten.forward] is [x.view(x.size()[0], -1)]: the first
    axis is kept and the others are merged, which [view] cannot do
    when the first axis is empty. *)
Definition layer_shape (training : bool) (l : layer) (s : shape) : option shape :=
  match l with
  | Conv2d cin cout k st =>
      match s with
      | [n; c; h; w] =>
          if ((c =? cin) && (k <=? h) && (k <=? w) && (0 <? st))%nat
          then Some [n; cout; conv_size h k st; conv_size w k st]
          else None
      | [c; h; w] =>
          if ((c =? cin) && (k <=? h) && (k <=? w) && (0 <? st))%nat
          then Some [cout; conv_size h k st; conv_size w k st]
          else None
      | _ => None
      end
  | BatchNorm2d f =>
      match s with
      | [n; c; h; w] =>
          if (c =? f)%nat && negb (training && one_value_per_channel s)
          then Some s else None
      | _ => None
      end
  | BatchNorm1d f =>
      match s with
      | [n; c] =>
          if (c =? f)%nat && negb (training && one_value_per_channel s)
          then Some s else None
      | [n; c; len] =>
          if (c =? f)%nat && negb (training && one_value_per_channel s)
          then Some s else None
      | _ => None
      end
  | Linear fin fout =>
      match rev s with
      | c :: front => if (c =? fin)%nat then Some (rev front ++ [fout]) else None
      | [] => None
      end
  | Flatten =>
      match s with
      | n :: rest =>
          if (n =? 0)%nat then None else Some [n; fold_right Nat.mul 1%nat rest]
      | [] => None
      end
  | ELU => Some s
  | Dropout2d _ => Some s
  | Dropout _ => Some s
  end.

(** [torch.nn.Sequential]: the layers one after the other. *)
Fixpoint forward_shape (training : bool) (layers : list layer) (s : shape)
  : option shape :=
  match layers with
  | [] => Some s
  | l :: layers' =>
      match layer_shape training l s with
      | Some s' => forward_shape training layers' s'
      | None => None
      end
  end.

(** ** Concrete data for the examples *)

Module Sample.

(** An enumeration of seven patterns: no action, left, left+brake,
    right, right+brake, accelerate, brake. *)
Definition actions_table : list vec3 :=
  [(0, 0, 0); (-1, 0, 0); left_brake; (1, 0, 0); right_brake; accelerate; brake].

(** An enumeration in which the accelerate pattern comes twice. *)
Definition actions_twice : list vec3 :=
  [accelerate; (-1, 0, 0); accelerate].

(** States are numbered frames. *)
Definition frame : Type := nat.

Definition transition (s : frame) (a : vec3) : record frame :=
  [Img s; Act a; Obj 0; Obj 0; Obj 0].

(** One transition per pattern: accelerate, brake, left+brake, and an
    action that is no pattern of the table. *)
Definition four : list (record frame) :=
  [transition 0%nat accelerate; transition 1%nat brake;
   transition 2%nat left_brake; transition 3%nat (1, 1, 0)].

(** Three transitions, none of a rare pattern: accelerate, left, and
    an action that is no pattern of the table. *)
Definition three : list (record frame) :=
  [transition 0%nat accelerate; transition 1%nat (-1, 0, 0);
   transition 2%nat (1, 1, 0)].

(** An array of three states. *)
Definition states3 : ndarray frame :=
  {| rows := [Img 0%nat; Img 1%nat; Img 2%nat]; ndim4 := true |}.

(** A generator that leaves the order as it is and draws [1 - 2^-53]
    every time. *)
Definition rng_high : rng frame :=
  {| shuffle := fun l => l;
     shuffle_perm := fun l => Permutation_refl l;
     rand := fun k => repeat (2 ^ 53 - 1) k;
     rand_length := fun k => repeat_length (2 ^ 53 - 1) k;
     rand_range := ltac:(intros k u H; apply repeat_spec in H; subst u; lia) |}.

(** A generator that reverses the list and draws [0] every time. *)
Definition rng_low : rng frame :=
  {| shuffle := fun l => rev l;
     shuffle_perm := fun l => Permutation_sym (Permutation_rev l);
     rand := fun k => repeat 0 k;
     rand_length := fun k => repeat_length 0 k;
     rand_range := ltac:(intros k u H; apply repeat_spec in H; subst u; lia) |}.

(** The world before the run: nothing has happened, no checkpoint. *)
Definition initial_world : world nat :=
  {| trace := []; reads := 0; model_file := None; writes := [] |}.

(** A stand-in for the framework.  The model counts its updates: the
    forward pass of [summary] is one, each training pass is one.  The
    loaders are the datasets themselves.  A training pass refuses a
    loader whose last batch holds a single sample, as the
    normalisation layers do in training mode. *)
Definition summary (m : nat) : result nat := Ok (S m).

Definition train_epoch (epoch : nat) (m : nat) (loader : dataset frame) : result nat :=
  if (length loader mod BATCH_SIZE =? 1)%nat then Raise ValueError else Ok (S m).

Definition test (m : nat) (loader : dataset frame) : result unit := Ok tt.

Abbreviation run_on input :=
  (run frame actions_table (fun s => s) nat nat (dataset frame) (fun m => m)
       summary (fun ds _ _ _ => Ok ds) train_epoch test
       input (fun _ => rng_high) 0%nat).

Abbreviation create_on input :=
  (create_datasets frame actions_table (fun s => s) nat (dataset frame)
                   (fun ds _ _ _ => Ok ds) input (fun _ => rng_high)).

Abbreviation train_on input :=
  (train frame actions_table (fun s => s) nat nat (dataset frame) (fun m => m)
         summary (fun ds _ _ _ => Ok ds) train_epoch test
         input (fun _ => rng_high) 0%nat).

End Sample.

(** * Properties *)

(** ** Results and vectors *)

Lemma bind_Ok_inv {A B : Type} (r : result A) (k : A -> result B) (b : B) :
  bind r k = Ok b -> exists a, r = Ok a /\ k a = Ok b.
Proof. destruct r as [a|e]; cbn; [eauto | discriminate]. Qed.

Lemma vec3_eqb_eq (u v : vec3) : vec3_eqb u v = true <-> u = v.
Proof.
  destruct u as [[u0 u1] u2], v as [[v0 v1] v2]; cbn.
  rewrite !andb_true_iff, !Z.eqb_eq.
  split; [intros [[-> ->] ->]; reflexivity | intros [= -> -> ->]; auto].
Qed.

Lemma vec3_eqb_refl (u : vec3) : vec3_eqb u u = true.
Proof. apply vec3_eqb_eq; reflexivity. Qed.

Lemma vec3_eqb_neq (u v : vec3) : vec3_eqb u v = false <-> u <> v.
Proof.
  rewrite <- vec3_eqb_eq. destruct (vec3_eqb u v); split; congruence.
Qed.

(** ** Inflation *)

Section InflationFacts.

Variable State : Type.
Variable State_eq_dec : forall s t : State, {s = t} + {s <> t}.

Local Abbreviation record_dec := (record_eq_dec State State_eq_dec).

(** A vector equals at most one of the three literals, so the inner
    loop appends at most once. *)
Lemma inner_loop_rare (v : vec3) (d : record State) (m : Z) (acc : list (record State)) :
  fold_left
    (fun acc a => if array_equal (@Act State v) a then acc ++ repeat d (Z.to_nat m) else acc)
    rare_events acc
  = acc ++ (if is_rare v then repeat d (Z.to_nat m) else []).
Proof.
  unfold is_rare, rare_events, array_equal; cbn [fold_left existsb].
  destruct (vec3_eqb v left_brake) eqn:E1.
  - apply vec3_eqb_eq in E1; subst v; cbn. reflexivity.
  - destruct (vec3_eqb v right_brake) eqn:E2.
    + apply vec3_eqb_eq in E2; subst v; cbn. reflexivity.
    + rewrite ?E1, ?E2. cbn [orb].
      destruct (vec3_eqb v brake); cbn; [reflexivity | now rewrite app_nil_r].
Qed.

Lemma inflate_one_Ok (m : Z) (d : record State) (acc : list (record State)) :
  (2 <= length d)%nat -> inflate_one m d acc = Ok (acc ++ extras m d).
Proof.
  intros Hd. unfold inflate_one, getitem, extras, rare_record, action_of.
  destruct d as [|f0 [|f1 d']]; cbn in Hd; try lia.
  cbn [nth_error bind].
  destruct f1 as [s|v|o].
  - cbn. now rewrite app_nil_r.
  - now rewrite inner_loop_rare.
  - cbn. now rewrite app_nil_r.
Qed.

Lemma inflate_one_inv (m : Z) (d : record State) (acc r : list (record State)) :
  inflate_one m d acc = Ok r -> (2 <= length d)%nat /\ r = acc ++ extras m d.
Proof.
  intros H.
  assert (Hd : (2 <= length d)%nat).
  { unfold inflate_one, getitem in H.
    destruct d as [|f0 [|f1 d']]; cbn in H; try discriminate; cbn; lia. }
  split; [exact Hd|]. rewrite (inflate_one_Ok m d acc Hd) in H. congruence.
Qed.

Lemma inflate_loop_Ok (m : Z) (ds acc : list (record State)) :
  Forall (fun d => (2 <= length d)%nat) ds ->
  inflate_loop m ds acc = Ok (acc ++ flat_map (extras m) ds).
Proof.
  intros H; revert acc.
  induction H as [|d ds Hd _ IH]; intros acc; cbn.
  - now rewrite app_nil_r.
  - rewrite (inflate_one_Ok m d acc Hd); cbn. rewrite IH. now rewrite app_assoc.
Qed.

Lemma inflate_loop_inv (m : Z) (ds acc r : list (record State)) :
  inflate_loop m ds acc = Ok r ->
  Forall (fun d => (2 <= length d)%nat) ds /\ r = acc ++ flat_map (extras m) ds.
Proof.
  revert acc; induction ds as [|d ds IH]; intros acc; cbn.
  - intros [= <-]. split; [constructor | now rewrite app_nil_r].
  - intros H. apply bind_Ok_inv in H as (acc' & H1 & H2).
    apply inflate_one_inv in H1 as [Hd ->].
    apply IH in H2 as [Hds ->].
    split; [constructor; assumption | now rewrite app_assoc].
Qed.

(** Whatever the multiplier, a successful inflation returns the input
    followed by copies of some of its elements. *)
Lemma inflate_inv (m : Z) (data r : list (record State)) :
  inflate m data = Ok r ->
  r = data ++ (if 1 <? m then flat_map (extras m) data else []).
Proof.
  unfold inflate. destruct (1 <? m).
  - intros H. now apply inflate_loop_inv in H as [_ ->].
  - intros [= <-]. now rewrite app_nil_r.
Qed.

Lemma in_extras (m : Z) (d e : record State) : In e (extras m d) -> e = d.
Proof.
  unfold extras. destruct (rare_record d); [|intros []].
  intros H. now apply repeat_spec in H.
Qed.

Lemma inflate_In (m : Z) (data r : list (record State)) (d : record State) :
  inflate m data = Ok r -> (In d r <-> In d data).
Proof.
  intros H. apply inflate_inv in H. subst r. rewrite in_app_iff.
  split; [|now left]. intros [H|H]; [assumption|].
  destruct (1 <? m); [|destruct H].
  apply in_flat_map in H as (e & He & Hd). apply in_extras in Hd. now subst.
Qed.

Lemma count_occ_extras (m : Z) (ds : list (record State)) (d : record State) :
  count_occ record_dec (flat_map (extras m) ds) d
  = if rare_record d then (Z.to_nat m * count_occ record_dec ds d)%nat else 0%nat.
Proof.
  induction ds as [|e ds IH]; cbn [flat_map].
  - cbn. destruct (rare_record d); lia.
  - rewrite count_occ_app, IH. cbn [count_occ]. unfold extras.
    destruct (record_dec e d) as [->|Hne].
    + destruct (rare_record d).
      * rewrite count_occ_repeat_eq by reflexivity. lia.
      * reflexivity.
    + destruct (rare_record e).
      * rewrite count_occ_repeat_neq by congruence. reflexivity.
      * reflexivity.
Qed.

(** C3.  With the configured multiplier, on a list of tuples that have
    a second component, the inflation returns a list in which a tuple
    whose action is one of the three rare patterns occurs
    [1 + MULTIPLY_RARE_EVENTS] times for each of its occurrences in the
    input, and every other tuple occurs as often as in the input. *)
Theorem inflation_copies (data : list (record State)) :
  Forall (fun d => (2 <= length d)%nat) data ->
  exists inflated,
    inflate MULTIPLY_RARE_EVENTS data = Ok inflated /\
    forall d,
      count_occ record_dec inflated d
      = if rare_record d
        then (Z.to_nat (1 + MULTIPLY_RARE_EVENTS) * count_occ record_dec data d)%nat
        else count_occ record_dec data d.
Proof.
  intros Hwf. eexists. split.
  - unfold inflate. change (1 <? MULTIPLY_RARE_EVENTS) with true. cbn iota.
    apply inflate_loop_Ok, Hwf.
  - intros d. rewrite count_occ_app, count_occ_extras.
    destruct (rare_record d); [|lia].
    change (Z.to_nat (1 + MULTIPLY_RARE_EVENTS)) with (S (Z.to_nat MULTIPLY_RARE_EVENTS)).
    lia.
Qed.

(** C10.  With a multiplier of 1 or less the inflation is skipped: the
    list that goes on to the shuffle is the input itself, so every
    tuple, rare or not, occurs in it as often as in the input. *)
Theorem inflation_skipped (m : Z) (data : list (record State)) :
  m <= 1 ->
  exists inflated,
    inflate m data = Ok inflated /\
    inflated = data /\
    forall d, count_occ record_dec inflated d = count_occ record_dec data d.
Proof.
  intros Hm. exists data. split; [|split; [reflexivity | reflexivity]].
  unfold inflate. now replace (1 <? m) with false by (symmetry; apply Z.ltb_ge; lia).
Qed.

End InflationFacts.

(** ** Masks *)

Section MaskFacts.

Context {A B : Type}.

Lemma select_map (f : A -> B) (mask : list bool) (xs : list A) :
  select mask (map f xs) = map f (select mask xs).
Proof.
  revert xs; induction mask as [|b mask IH]; intros [|x xs]; cbn; try reflexivity.
  destruct b; cbn; now rewrite IH.
Qed.

Lemma select_filter (p : A -> bool) (xs : list A) :
  select (map p xs) xs = filter p xs.
Proof.
  induction xs as [|x xs IH]; cbn; [reflexivity|].
  destruct (p x); now rewrite IH.
Qed.

Lemma select_combine (mask : list bool) (xs : list A) (ys : list B) :
  select mask (combine xs ys) = combine (select mask xs) (select mask ys).
Proof.
  revert xs ys; induction mask as [|b mask IH]; intros [|x xs] [|y ys]; cbn;
    try reflexivity.
  - destruct b; cbn; [reflexivity | now destruct (select mask xs)].
  - destruct b; cbn; now rewrite IH.
Qed.

Lemma in_select (mask : list bool) (xs : list A) (x : A) :
  In x (select mask xs) -> In x xs.
Proof.
  revert xs; induction mask as [|b mask IH]; intros [|y xs]; cbn; try tauto.
  destruct b; cbn; intros H; [destruct H as [H|H]|]; auto.
Qed.

Lemma select_length (mask : list bool) (xs : list A) (ys : list B) :
  length xs = length ys -> length (select mask xs) = length (select mask ys).
Proof.
  revert xs ys; induction mask as [|b mask IH]; intros [|x xs] [|y ys]; cbn;
    try reflexivity; try discriminate.
  intros [= H]. destruct b; cbn; auto.
Qed.

End MaskFacts.

(** ** Label derivation *)

Section LabelFacts.

Variable State : Type.

Lemma action_rows_Some (col : list (field State)) (vs : list vec3) :
  action_rows col = Some vs <-> col = map Act vs.
Proof.
  revert vs; induction col as [|f col IH]; intros vs; cbn.
  - split; [intros [= <-]; reflexivity | destruct vs; [reflexivity|discriminate]].
  - destruct f as [s|v|o]; try (split; [discriminate | destruct vs; discriminate]).
    destruct (action_rows col) as [ws|] eqn:E.
    + split.
      * intros [= <-]. cbn. f_equal. now apply IH.
      * destruct vs as [|w vs]; [discriminate|]. cbn. intros [= -> H].
        apply IH in H. congruence.
    + split; [discriminate|].
      destruct vs as [|w vs]; [discriminate|]. cbn. intros [= -> H].
      apply IH in H. discriminate.
Qed.

Lemma rows_equal_Act (vs : list vec3) (a : vec3) :
  rows_equal (map (@Act State) vs) a = Ok (map (fun v => vec3_eqb v a) vs).
Proof.
  unfold rows_equal.
  now rewrite (proj2 (action_rows_Some (map Act vs) vs) eq_refl).
Qed.

(** The cells of [act_classes] evolve row by row. *)
Lemma label_loop_rows (vs : list vec3) (patterns : list vec3) (i : Z) (cs : list Z) :
  length cs = length vs ->
  label_loop (map (@Act State) vs) patterns i cs
  = Ok (map (fun cv => classify_from patterns i (fst cv) (snd cv)) (combine cs vs)).
Proof.
  revert i cs; induction patterns as [|a ps IH]; intros i cs Hlen; cbn.
  - f_equal. revert vs Hlen. induction cs as [|c cs IHc]; intros [|v vs]; cbn;
      try discriminate; [reflexivity|].
    intros [= H]. now rewrite <- IHc.
  - rewrite rows_equal_Act; cbn.
    rewrite IH.
    + f_equal. clear IH. revert vs Hlen.
      induction cs as [|c cs IHc]; intros [|v vs]; cbn; try discriminate;
        [reflexivity|].
      intros [= H]. now rewrite IHc.
    + clear IH. revert vs Hlen.
      induction cs as [|c cs IHc]; intros [|v vs]; cbn; try discriminate;
        [reflexivity|].
      intros [= H]. now rewrite IHc.
Qed.

Lemma derive_classes_Act (available_actions : list vec3) (vs : list vec3) :
  derive_classes available_actions (map (@Act State) vs)
  = Ok (map (classify_from available_actions 0 (-1)) vs).
Proof.
  unfold derive_classes. rewrite label_loop_rows by now rewrite repeat_length, length_map.
  f_equal. rewrite length_map.
  induction vs as [|v vs IH]; cbn; [reflexivity | now rewrite IH].
Qed.

Lemma derive_classes_inv (available_actions : list vec3)
  (actions : list (field State)) (cs : list Z) :
  available_actions <> [] ->
  derive_classes available_actions actions = Ok cs ->
  exists vs, actions = map Act vs /\
             cs = map (classify_from available_actions 0 (-1)) vs.
Proof.
  intros Hne H.
  destruct (action_rows actions) as [vs|] eqn:E.
  - apply action_rows_Some in E. subst actions. exists vs. split; [reflexivity|].
    rewrite derive_classes_Act in H. congruence.
  - exfalso. unfold derive_classes in H.
    destruct available_actions as [|a ps]; [congruence|].
    cbn in H. unfold rows_equal in H. rewrite E in H.
    destruct (forallb is_img actions); discriminate.
Qed.

(** What the cell of a row holds after the loop: its former content
    when no pattern equals the row, and otherwise the index of the last
    pattern that does. *)
Lemma classify_from_cases (patterns : list vec3) (i c : Z) (v : vec3) :
  let r := classify_from patterns i c v in
  (r = c /\ ~ In v patterns) \/
  (i <= r < i + Z.of_nat (length patterns) /\
   nth_error patterns (Z.to_nat (r - i)) = Some v /\
   forall j, (Z.to_nat (r - i) < j)%nat -> nth_error patterns j <> Some v).
Proof.
  revert i c; induction patterns as [|a ps IH]; intros i c; cbn zeta.
  - left. cbn. tauto.
  - cbn [classify_from].
    specialize (IH (i + 1) (if vec3_eqb v a then i else c)). cbn zeta in IH.
    set (r := classify_from ps (i + 1) (if vec3_eqb v a then i else c) v) in *.
    destruct IH as [[Hr Hnin]|(Hr & Hnth & Hlast)].
    + destruct (vec3_eqb v a) eqn:E.
      * apply vec3_eqb_eq in E. subst a. right. rewrite Hr.
        replace (i - i) with 0 by lia. cbn [length Z.to_nat nth_error].
        split; [lia|]. split; [reflexivity|].
        intros [|j] Hj; [lia|]. cbn. intros Hv.
        apply Hnin. eapply nth_error_In, Hv.
      * apply vec3_eqb_neq in E. left. split; [exact Hr|].
        cbn. intros [Ha|Hin]; [congruence | tauto].
    + right. cbn [length].
      replace (Z.to_nat (r - i)) with (S (Z.to_nat (r - (i + 1)))) by lia.
      split; [lia|]. split; [exact Hnth|].
      intros [|j] Hj; [lia|]. cbn. apply Hlast. lia.
Qed.

Lemma label_of_cases (available_actions : list vec3) (d : record State) :
  label_of available_actions d <> -1 ->
  exists v,
    action_of d = Some v /\
    0 <= label_of available_actions d < Z.of_nat (length available_actions) /\
    nth_error available_actions (Z.to_nat (label_of available_actions d)) = Some v /\
    forall j, (Z.to_nat (label_of available_actions d) < j)%nat ->
              nth_error available_actions j <> Some v.
Proof.
  unfold label_of. destruct (action_of d) as [v|]; [|congruence].
  intros Hne. exists v. split; [reflexivity|].
  destruct (classify_from_cases available_actions 0 (-1) v) as [[Hr _]|(Hr & Hnth & Hlast)];
    [congruence|].
  rewrite Z.sub_0_r in *. repeat split; try assumption; lia.
Qed.

Lemma label_of_sentinel (available_actions : list vec3) (d : record State) (v : vec3) :
  action_of d = Some v -> ~ In v available_actions ->
  label_of available_actions d = -1.
Proof.
  unfold label_of. intros -> Hnin.
  destruct (classify_from_cases available_actions 0 (-1) v) as [[Hr _]|(_ & Hnth & _)];
    [exact Hr|].
  exfalso. apply Hnin. eapply nth_error_In, Hnth.
Qed.

(** The labels the loop computes are those of the tuples. *)
Lemma labels_of_column (available_actions : list vec3)
  (data : list (record State)) (vs : list vec3) :
  column 1 data = map Act vs ->
  map (classify_from available_actions 0 (-1)) vs = map (label_of available_actions) data.
Proof.
  revert vs; induction data as [|d data IH]; intros [|v vs]; cbn; try discriminate;
    [reflexivity|].
  intros [= Hd Hcol]. f_equal; [|now apply IH].
  unfold label_of, action_of.
  destruct d as [|f0 [|f1 d']]; cbn in Hd; try discriminate.
  cbn. now rewrite Hd.
Qed.

End LabelFacts.

(** ** Down-sampling *)

Lemma index_from_inv (v : vec3) (l : list vec3) (i a : Z) :
  index_from v l i = Ok a ->
  i <= a < i + Z.of_nat (length l) /\
  nth_error l (Z.to_nat (a - i)) = Some v /\
  forall j, (j < Z.to_nat (a - i))%nat -> nth_error l j <> Some v.
Proof.
  revert i; induction l as [|b l IH]; intros i; cbn [index_from]; [discriminate|].
  destruct (vec3_eqb b v) eqn:E.
  - intros [= <-]. apply vec3_eqb_eq in E. subst b.
    replace (i - i) with 0 by lia. cbn. repeat split; lia.
  - intros H. apply IH in H as (Hr & Hnth & Hfirst). cbn [length].
    replace (Z.to_nat (a - i)) with (S (Z.to_nat (a - (i + 1)))) by lia.
    split; [lia|]. split; [exact Hnth|].
    intros [|j] Hj; cbn.
    + apply vec3_eqb_neq in E. congruence.
    + apply Hfirst. lia.
Qed.

Lemma index_from_In (v : vec3) (l : list vec3) (i : Z) :
  In v l -> exists a, index_from v l i = Ok a.
Proof.
  revert i; induction l as [|b l IH]; intros i; cbn; [tauto|].
  intros H. destruct (vec3_eqb b v) eqn:E; [eauto|].
  apply vec3_eqb_neq in E. destruct H as [H|H]; [congruence|]. now apply IH.
Qed.

(** In a list without repetition the first and the last position of a
    pattern coincide: [index] returns the label the loop assigns. *)
Lemma index_is_label (l : list vec3) (v : vec3) (a : Z) :
  NoDup l -> index l v = Ok a -> classify_from l 0 (-1) v = a.
Proof.
  intros Hnd H. apply index_from_inv in H as (Hr & Hnth & _).
  rewrite Z.sub_0_r in Hnth.
  destruct (classify_from_cases l 0 (-1) v) as [[_ Hnin]|(Hr' & Hnth' & _)].
  - exfalso. apply Hnin. eapply nth_error_In, Hnth.
  - rewrite Z.sub_0_r in Hnth'.
    assert (E : Z.to_nat (classify_from l 0 (-1) v) = Z.to_nat a).
    { eapply (proj1 (NoDup_nth_error l) Hnd).
      - apply nth_error_Some. congruence.
      - congruence. }
    lia.
Qed.

Section DropFacts.

Context {A : Type}.
Variable p : A -> bool.

Lemma fill_false_keeps (xs : list A) (vals : list bool) :
  filter p (select (fill_false (map p xs) vals) xs) = filter p xs.
Proof.
  revert vals; induction xs as [|x xs IH]; intros vals; cbn; [reflexivity|].
  destruct (p x) eqn:E; cbn.
  - rewrite E. now rewrite IH.
  - destruct vals as [|[|] vals]; cbn; rewrite ?E; apply IH.
Qed.

Lemma fill_false_draws (xs : list A) (vals : list bool) :
  filter (fun x => negb (p x)) (select (fill_false (map p xs) vals) xs)
  = select vals (filter (fun x => negb (p x)) xs).
Proof.
  revert vals; induction xs as [|x xs IH]; intros vals; cbn.
  - now destruct vals.
  - destruct (p x) eqn:E; cbn.
    + rewrite E. cbn. apply IH.
    + destruct vals as [|[|] vals]; cbn; rewrite ?E; cbn; rewrite IH.
      * reflexivity.
      * reflexivity.
      * reflexivity.
Qed.

Lemma count_false_filter (xs : list A) :
  count_false (map p xs) = length (filter (fun x => negb (p x)) xs).
Proof.
  unfold count_false. induction xs as [|x xs IH]; cbn; [reflexivity|].
  destruct (p x); cbn; now rewrite IH.
Qed.

End DropFacts.

Lemma not_equal_samples {F : Type} (xs : list F) (cs : list Z) (c : Z) :
  length xs = length cs ->
  not_equal cs c = map (fun s : F * Z => negb (snd s =? c)) (combine xs cs).
Proof.
  unfold not_equal. revert cs; induction xs as [|x xs IH]; intros [|d cs]; cbn;
    try discriminate; [reflexivity|].
  intros [= H]. now rewrite IH.
Qed.

(** The threshold on numerators is the comparison of the draw with
    seven tenths. *)
Lemma exceeds_0_7_spec (u : Z) : exceeds_0_7 u = true <-> 7 * 2 ^ 53 < 10 * u.
Proof.
  unfold exceeds_0_7, TH. rewrite Z.ltb_lt.
  change (2 ^ 53) with 9007199254740992. lia.
Qed.

Section DownsamplingFacts.

Variable State : Type.
Variable available_actions : list vec3.

(** C4.  On parallel arrays, with [accel] the index of the accelerate
    pattern, the down-sampling step returns arrays in which the samples
    of class [accel] are those whose own draw (the k-th draw for the
    k-th such sample) exceeds 0.7, and the samples of all other classes
    are all there, in their order.  A draw [u / 2^53] exceeds the
    constant exactly when it exceeds seven tenths, and of the [2^53]
    equally likely numerators the lowest [TH + 1] are discarded, a
    share within [2^-53] of 0.7. *)
Theorem accelerate_downsampling (g : rng State) (states : ndarray State)
  (act_classes : list Z) (accel : Z) :
  length (rows states) = length act_classes ->
  index available_actions accelerate = Ok accel ->
  exists states' act_classes',
    drop_accelerations available_actions g states act_classes
    = Ok (states', act_classes') /\
    let before := samples states act_classes in
    let after := samples states' act_classes' in
    let draws := rand g (length (filter (has_class accel) before)) in
    filter (has_class accel) after
    = select (map exceeds_0_7 draws) (filter (has_class accel) before) /\
    filter (fun s => negb (has_class accel s)) after
    = filter (fun s => negb (has_class accel s)) before /\
    (forall u, exceeds_0_7 u = true <-> 7 * 2 ^ 53 < 10 * u) /\
    (forall u, exceeds_0_7 u = false <-> u < TH + 1) /\
    Z.abs (10 * (TH + 1) - 7 * 2 ^ 53) < 10.
Proof.
  intros Hlen Hidx. unfold drop_accelerations. rewrite Hidx. cbn [bind].
  eexists _, _. split; [reflexivity|].
  cbn zeta. unfold samples, select_rows. cbn [rows].
  rewrite <- select_combine.
  rewrite (not_equal_samples (rows states) act_classes accel Hlen).
  set (q := fun s : field State * Z => negb (snd s =? accel)).
  rewrite (count_false_filter q).
  assert (Hq : forall xs, filter (has_class accel) xs = filter (fun x => negb (q x)) xs).
  { intros xs. apply filter_ext. intros s. unfold q, has_class.
    now rewrite negb_involutive. }
  rewrite !Hq.
  split; [|split; [|split; [|split]]].
  - apply fill_false_draws.
  - apply (fill_false_keeps q).
  - apply exceeds_0_7_spec.
  - intros u. unfold exceeds_0_7. rewrite Z.ltb_ge. lia.
  - unfold TH. change (2 ^ 53) with 9007199254740992. lia.
Qed.

End DownsamplingFacts.

(** ** Columns *)

Section ColumnFacts.

Variable State : Type.

Lemma fold_min_le (ds : list (record State)) (w : nat) :
  (fold_left (fun w e => Nat.min w (length e)) ds w <= w)%nat /\
  forall d, In d ds ->
            (fold_left (fun w e => Nat.min w (length e)) ds w <= length d)%nat.
Proof.
  revert w; induction ds as [|e ds IH]; intros w; cbn.
  - split; [lia | tauto].
  - destruct (IH (Nat.min w (length e))) as [H1 H2]. split; [lia|].
    intros d [->|Hd]; [lia | auto].
Qed.

Lemma fold_min_attained (ds : list (record State)) (w : nat) :
  fold_left (fun w e => Nat.min w (length e)) ds w = w \/
  exists d, In d ds /\
            fold_left (fun w e => Nat.min w (length e)) ds w = length d.
Proof.
  revert w; induction ds as [|e ds IH]; intros w; cbn; [now left|].
  destruct (IH (Nat.min w (length e))) as [H|(d & Hd & H)].
  - rewrite H. destruct (Nat.min_spec w (length e)) as [[_ E]|[_ E]];
      rewrite E; [now left | right; eauto].
  - right; eauto.
Qed.

Lemma zip_width_le (data : list (record State)) (d : record State) :
  In d data -> (zip_width data <= length d)%nat.
Proof.
  destruct data as [|e ds]; cbn; [tauto|].
  destruct (fold_min_le ds (length e)) as [H1 H2].
  intros [<-|Hd]; auto.
Qed.

Lemma zip_width_attained (data : list (record State)) :
  data <> [] -> exists d, In d data /\ zip_width data = length d.
Proof.
  destruct data as [|e ds]; [congruence|]. intros _. cbn.
  destruct (fold_min_attained ds (length e)) as [H|(d & Hd & H)]; eauto.
Qed.

Lemma zip_width_5 (data : list (record State)) :
  data <> [] -> Forall (fun d => length d = 5%nat) data -> zip_width data = 5%nat.
Proof.
  intros Hne Hall. destruct (zip_width_attained data Hne) as (d & Hd & ->).
  now apply (proj1 (Forall_forall _ _) Hall).
Qed.

Lemma column_actions_inv (data : list (record State)) (vs : list vec3) :
  column 1 data = map Act vs ->
  Forall (fun d => exists v, action_of d = Some v) data.
Proof.
  revert vs; induction data as [|d data IH]; intros [|v vs]; cbn; try discriminate;
    [constructor|].
  intros [= Hd Hcol]. constructor; [|now apply (IH vs)].
  exists v. unfold action_of.
  destruct d as [|f0 [|f1 d']]; cbn in Hd; try discriminate. cbn. now rewrite Hd.
Qed.

Lemma column_actions (data : list (record State)) :
  Forall (fun d => exists v, action_of d = Some v) data ->
  exists vs, column 1 data = map Act vs.
Proof.
  induction 1 as [|d data (v & Hv) _ (vs & IH)]; [now exists []|].
  exists (v :: vs). unfold column in *. cbn [map]. rewrite IH. f_equal.
  unfold action_of in Hv.
  destruct d as [|f0 [|[s|w|o] d']]; cbn in Hv; try discriminate. cbn. congruence.
Qed.

End ColumnFacts.

(** ** The dataset preparer *)

Section PreparerFacts.

Variable State : Type.
Variable available_actions : list vec3.

Local Abbreviation label := (label_of available_actions).

(** A tuple is recognised when its label is not the sentinel. *)
Local Abbreviation recognised := (fun d : record State => negb (label d =? -1)).

(** The mask of the down-sampling step, for the tuples [ds] left by the
    filtering. *)
Local Abbreviation keep_mask g accel ds :=
  (fill_false (not_equal (map label ds) accel)
     (map exceeds_0_7 (rand g (count_false (not_equal (map label ds) accel))))).

Lemma load_inv (f : data_file State) (data : list (record State)) :
  load f = Ok data -> f = file_pickle data.
Proof. destruct f; cbn; congruence. Qed.

Lemma unzip5_inv (data : list (record State)) (s a : list (field State)) :
  unzip5 data = Ok (s, a) ->
  zip_width data = 5%nat /\ s = column 0 data /\ a = column 1 data.
Proof.
  unfold unzip5. destruct (zip_width data =? 5)%nat eqn:E; [|discriminate].
  apply Nat.eqb_eq in E. intros [= <- <-]. auto.
Qed.

(** What a returning call of [read_data] has done: the file held a
    list [data]; the inflation returned; every tuple of the shuffled
    list had an action vector; and the two arrays returned are the
    first components and the labels of the same tuples [kept], chosen
    by the down-sampling mask among the recognised tuples. *)
Lemma read_data_with_inv (m : Z) (f : data_file State) (g : rng State)
  (states : ndarray State) (act_classes : list Z) :
  read_data_with available_actions m f g = Ok (states, act_classes) ->
  exists data inflated accel,
    f = file_pickle data /\
    inflate m data = Ok inflated /\
    zip_width (shuffle g inflated) = 5%nat /\
    index available_actions accelerate = Ok accel /\
    let kept := select (keep_mask g accel (filter recognised (shuffle g inflated)))
                       (filter recognised (shuffle g inflated)) in
    rows states = column 0 kept /\
    ndim4 states = forallb is_img (column 0 (shuffle g inflated)) /\
    act_classes = map label kept.
Proof.
  unfold read_data_with. intros H.
  apply bind_Ok_inv in H as (data & Hload & H). apply load_inv in Hload.
  apply bind_Ok_inv in H as (inflated & Hinf & H).
  apply bind_Ok_inv in H as ([s a] & Hzip & H).
  apply unzip5_inv in Hzip as (Hw & -> & ->).
  apply bind_Ok_inv in H as (cs & Hcs & H).
  unfold drop_accelerations in H.
  apply bind_Ok_inv in H as (accel & Hidx & H).
  assert (Hne : available_actions <> []).
  { intros E. rewrite E in Hidx. discriminate. }
  apply (derive_classes_inv _ _ _ _ Hne) in Hcs as (vs & Hcol & ->).
  rewrite (labels_of_column _ _ _ _ Hcol) in H.
  exists data, inflated, accel. repeat (split; [assumption|]).
  injection H as <- <-. cbn zeta.
  set (sh := shuffle g inflated) in *.
  assert (E1 : not_equal (map label sh) (-1) = map recognised sh).
  { unfold not_equal. now rewrite map_map. }
  assert (E2 : select (map recognised sh) (map label sh)
               = map label (filter recognised sh)).
  { now rewrite select_map, select_filter. }
  rewrite E1, E2. unfold select_rows, np_array, column. cbn [rows ndim4].
  rewrite (select_map (fun d => nth 0 d (Obj 0)) (map recognised sh) sh).
  rewrite select_filter.
  rewrite !select_map. auto.
Qed.

(** Every tuple kept comes from the file and is recognised. *)
Lemma kept_recognised (m : Z) (g : rng State) (data inflated : list (record State))
  (mask : list bool) (d : record State) :
  inflate m data = Ok inflated ->
  In d (select mask (filter recognised (shuffle g inflated))) ->
  In d data /\ label d <> -1.
Proof.
  intros Hinf Hin. apply in_select, filter_In in Hin as [Hin Hrec].
  split.
  - apply (Permutation_in _ (shuffle_perm g inflated)) in Hin.
    now apply (inflate_In _ _ _ _ _ Hinf).
  - apply negb_true_iff, Z.eqb_neq in Hrec. exact Hrec.
Qed.

(** C1.  When [read_data] returns, the two arrays are the states and
    the labels of a list [kept] of tuples of the file, and for each of
    them the pattern found in [available_actions] at its label is its
    own action vector. *)
Theorem label_pattern_is_action (f : data_file State) (g : rng State)
  (states : ndarray State) (act_classes : list Z) :
  read_data available_actions f g = Ok (states, act_classes) ->
  exists data kept,
    f = file_pickle data /\
    incl kept data /\
    rows states = column 0 kept /\
    act_classes = map label kept /\
    Forall (fun d =>
              exists v, action_of d = Some v /\
                        0 <= label d /\
                        nth_error available_actions (Z.to_nat (label d)) = Some v)
           kept.
Proof.
  intros H. apply read_data_with_inv in H
    as (data & inflated & accel & -> & Hinf & _ & _ & Hrows & _ & Hcls).
  cbn zeta in *. eexists data, _. split; [reflexivity|].
  split; [|split; [exact Hrows|split; [exact Hcls|]]].
  - intros d Hd. now apply (kept_recognised _ _ _ _ _ _ Hinf) in Hd.
  - apply Forall_forall. intros d Hd.
    apply (kept_recognised _ _ _ _ _ _ Hinf) in Hd as [_ Hne].
    apply label_of_cases in Hne as (v & Hv & Hr & Hnth & _).
    exists v. repeat split; try assumption; lia.
Qed.

(** C2.  When [read_data] returns, the two arrays have the same
    length; every label is an index into [available_actions], hence not
    the sentinel; the pattern at that index is the action of the tuple
    the sample comes from, and no other index holds that pattern when
    the enumeration has no repetition; and every tuple behind a
    returned sample has an action that is one of the patterns, so a
    tuple whose action is no pattern is behind no sample. *)
Theorem retained_labels_valid (f : data_file State) (g : rng State)
  (states : ndarray State) (act_classes : list Z) :
  read_data available_actions f g = Ok (states, act_classes) ->
  length (rows states) = length act_classes /\
  Forall (fun c => 0 <= c < Z.of_nat (length available_actions) /\ c <> -1)
         act_classes /\
  exists data kept,
    f = file_pickle data /\
    incl kept data /\
    rows states = column 0 kept /\
    act_classes = map label kept /\
    Forall (fun d =>
              exists v, action_of d = Some v /\ In v available_actions /\
                        nth_error available_actions (Z.to_nat (label d)) = Some v /\
                        (NoDup available_actions ->
                         forall j, nth_error available_actions j = Some v ->
                                   j = Z.to_nat (label d)))
           kept.
Proof.
  intros H. apply read_data_with_inv in H
    as (data & inflated & accel & -> & Hinf & _ & _ & Hrows & _ & Hcls).
  cbn zeta in *.
  set (kept := select _ _) in *.
  assert (Hkept : forall d, In d kept -> In d data /\ label d <> -1).
  { intros d Hd. now apply (kept_recognised _ _ _ _ _ _ Hinf) in Hd. }
  split; [|split].
  - rewrite Hrows, Hcls. unfold column. now rewrite !length_map.
  - rewrite Hcls. apply Forall_map, Forall_forall. intros d Hd.
    apply Hkept in Hd as [_ Hne].
    apply label_of_cases in Hne as (v & _ & Hr & _). lia.
  - exists data, kept. split; [reflexivity|].
    split; [|split; [exact Hrows|split; [exact Hcls|]]].
    + intros d Hd. now apply Hkept in Hd.
    + apply Forall_forall. intros d Hd. apply Hkept in Hd as [_ Hne].
      apply label_of_cases in Hne as (v & Hv & Hr & Hnth & _).
      exists v. split; [exact Hv|]. split; [eapply nth_error_In, Hnth|].
      split; [exact Hnth|].
      intros Hnd j Hj.
      eapply (proj1 (NoDup_nth_error available_actions) Hnd).
      * apply nth_error_Some. congruence.
      * congruence.
Qed.

(** The two arrays a call returns have the same length. *)
Lemma read_data_parallel (m : Z) (f : data_file State) (g : rng State)
  (states : ndarray State) (act_classes : list Z) :
  read_data_with available_actions m f g = Ok (states, act_classes) ->
  length (rows states) = length act_classes.
Proof.
  intros H. apply read_data_with_inv in H
    as (data & inflated & accel & _ & _ & _ & _ & Hrows & _ & Hcls).
  cbn zeta in *. rewrite Hrows, Hcls. unfold column. now rewrite !length_map.
Qed.

(** A returning call had a file holding a non-empty list of tuples of
    at least five components, the second one an action vector. *)
Lemma read_data_with_wellformed (m : Z) (f : data_file State) (g : rng State)
  (res : ndarray State * list Z) :
  read_data_with available_actions m f g = Ok res ->
  exists data,
    f = file_pickle data /\ data <> [] /\
    Forall (fun d => (5 <= length d)%nat /\ exists v, action_of d = Some v) data.
Proof.
  unfold read_data_with. intros H.
  apply bind_Ok_inv in H as (data & Hload & H). apply load_inv in Hload.
  apply bind_Ok_inv in H as (inflated & Hinf & H).
  apply bind_Ok_inv in H as ([s a] & Hzip & H).
  apply unzip5_inv in Hzip as (Hw & -> & ->).
  apply bind_Ok_inv in H as (cs & Hcs & H).
  unfold drop_accelerations in H.
  apply bind_Ok_inv in H as (accel & Hidx & _).
  assert (Hne : available_actions <> []).
  { intros E. rewrite E in Hidx. discriminate. }
  apply (derive_classes_inv _ _ _ _ Hne) in Hcs as (vs & Hcol & _).
  apply column_actions_inv in Hcol.
  exists data. split; [exact Hload|]. split.
  - intros ->. apply inflate_inv in Hinf. cbn in Hinf.
    destruct (1 <? m); cbn in Hinf; subst inflated;
      pose proof (Permutation_length (shuffle_perm g [])) as E;
      destruct (shuffle g []); cbn in *; discriminate.
  - apply Forall_forall. intros d Hd.
    apply (inflate_In _ _ _ _ d Hinf) in Hd.
    apply (Permutation_in _ (Permutation_sym (shuffle_perm g inflated))) in Hd.
    split.
    + rewrite <- Hw. now apply zip_width_le.
    + now apply (proj1 (Forall_forall _ _) Hcol).
Qed.

(** On a file holding a non-empty list of tuples of five components,
    the second one an action vector, and with the accelerate pattern
    in the enumeration, the call returns. *)
Lemma read_data_with_returns (m : Z) (data : list (record State)) (g : rng State) :
  data <> [] ->
  Forall (fun d => length d = 5%nat /\ exists v, action_of d = Some v) data ->
  In accelerate available_actions ->
  exists states act_classes,
    read_data_with available_actions m (file_pickle data) g
    = Ok (states, act_classes).
Proof.
  intros Hne Hwf Hacc. unfold read_data_with. cbn [load bind].
  assert (Hinf : exists inflated, inflate m data = Ok inflated).
  { unfold inflate. destruct (1 <? m); [|eauto].
    eexists. apply inflate_loop_Ok.
    eapply Forall_impl; [|exact Hwf]. cbn. intros d [-> _]. lia. }
  destruct Hinf as (inflated & Hinf). rewrite Hinf. cbn [bind].
  assert (Hsh : forall d, In d (shuffle g inflated) -> In d data).
  { intros d Hd. apply (Permutation_in _ (shuffle_perm g inflated)) in Hd.
    now apply (inflate_In _ _ _ _ d Hinf). }
  assert (Hw : zip_width (shuffle g inflated) = 5%nat).
  { apply zip_width_5.
    - intros E. destruct data as [|d data]; [congruence|].
      assert (Hd : In d (shuffle g inflated)).
      { apply (Permutation_in _ (Permutation_sym (shuffle_perm g inflated))).
        apply (inflate_In _ _ _ _ d Hinf). now left. }
      rewrite E in Hd. destruct Hd.
    - apply Forall_forall. intros d Hd. apply Hsh in Hd.
      now apply (proj1 (Forall_forall _ _) Hwf) in Hd. }
  unfold unzip5. rewrite Hw. cbn [Nat.eqb bind].
  destruct (column_actions _ (shuffle g inflated)) as (vs & Hcol).
  { apply Forall_forall. intros d Hd. apply Hsh in Hd.
    now apply (proj1 (Forall_forall _ _) Hwf) in Hd. }
  rewrite Hcol, derive_classes_Act. cbn [bind].
  unfold drop_accelerations.
  destruct (index_from_In accelerate available_actions 0 Hacc) as (accel & Hidx).
  unfold index. rewrite Hidx. cbn [bind]. eauto.
Qed.

End PreparerFacts.

(** ** Binary64 arithmetic of the split point *)

Lemma digits2_pos_bounds (p : positive) :
  2 ^ (Zpos (digits2_pos p) - 1) <= Zpos p < 2 ^ Zpos (digits2_pos p).
Proof.
  induction p as [p IH|p IH|]; cbn [digits2_pos].
  - rewrite Pos2Z.inj_succ.
    replace (Z.succ (Zpos (digits2_pos p)) - 1) with (Z.succ (Zpos (digits2_pos p) - 1)) by lia.
    rewrite !Z.pow_succ_r by lia. lia.
  - rewrite Pos2Z.inj_succ.
    replace (Z.succ (Zpos (digits2_pos p)) - 1) with (Z.succ (Zpos (digits2_pos p) - 1)) by lia.
    rewrite !Z.pow_succ_r by lia. lia.
  - cbn. lia.
Qed.

Lemma digits2_pos_unique (p : positive) (d : Z) :
  2 ^ (d - 1) <= Zpos p < 2 ^ d -> Zpos (digits2_pos p) = d.
Proof.
  intros [Hlo Hhi]. pose proof (digits2_pos_bounds p) as [Blo Bhi].
  set (e := Zpos (digits2_pos p)) in *.
  assert (He : 0 < e) by (unfold e; lia).
  assert (Hd : 0 < d).
  { destruct (Z.lt_ge_cases 0 d) as [|H]; [assumption|].
    exfalso. destruct (Z.eq_dec d 0) as [->|].
    - cbn in Hhi. lia.
    - rewrite (Z.pow_neg_r 2 d) in Hhi by lia. lia. }
  destruct (Z.lt_trichotomy e d) as [H|[H|H]]; [|assumption|].
  - exfalso. assert (2 ^ e <= 2 ^ (d - 1)) by (apply Z.pow_le_mono_r; lia). lia.
  - exfalso. assert (2 ^ d <= 2 ^ (e - 1)) by (apply Z.pow_le_mono_r; lia). lia.
Qed.

(** One step of the right shift, on the record that holds [N] shifted
    [j] times. *)
Lemma shr_1_step (N j : Z) (mrs : shr_record) :
  0 <= N -> 0 <= j ->
  shr_m mrs = N / 2 ^ j ->
  shr_r mrs = (0 <? j) && (2 ^ (j - 1) <=? N mod 2 ^ j) ->
  shr_s mrs = (0 <? j) && negb (N mod 2 ^ (j - 1) =? 0) ->
  shr_m (shr_1 mrs) = N / 2 ^ (j + 1) /\
  shr_r (shr_1 mrs) = (0 <? j + 1) && (2 ^ (j + 1 - 1) <=? N mod 2 ^ (j + 1)) /\
  shr_s (shr_1 mrs) = (0 <? j + 1) && negb (N mod 2 ^ (j + 1 - 1) =? 0).
Proof.
  intros HN Hj Hm Hr Hs. destruct mrs as [m r s]. cbn [shr_m shr_r shr_s] in *.
  replace (j + 1 - 1) with j by lia.
  replace (0 <? j + 1) with true by (symmetry; apply Z.ltb_lt; lia).
  cbn [andb].
  assert (P : 0 < 2 ^ j) by (apply Z.pow_pos_nonneg; lia).
  assert (E1 : N / 2 ^ (j + 1) = m / 2).
  { rewrite Z.pow_add_r, Z.pow_1_r by lia. rewrite <- Z.div_div by lia. now rewrite Hm. }
  assert (E2 : N mod 2 ^ (j + 1) = N mod 2 ^ j + 2 ^ j * (m mod 2)).
  { rewrite Z.pow_add_r, Z.pow_1_r by lia. rewrite Z.rem_mul_r by lia. now rewrite Hm. }
  pose proof (Z.mod_pos_bound N (2 ^ j) P) as HR.
  assert (E3 : r || s = negb (N mod 2 ^ j =? 0)).
  { rewrite Hr, Hs. destruct (0 <? j) eqn:J.
    - apply Z.ltb_lt in J. cbn [andb].
      assert (P' : 0 < 2 ^ (j - 1)) by (apply Z.pow_pos_nonneg; lia).
      assert (E : N mod 2 ^ j = N mod 2 ^ (j - 1) + 2 ^ (j - 1) * ((N / 2 ^ (j - 1)) mod 2)).
      { pose proof (Z.pow_add_r 2 (j - 1) 1 ltac:(lia) ltac:(lia)) as Hp.
        replace (j - 1 + 1) with j in Hp by lia. rewrite Z.pow_1_r in Hp.
        rewrite Hp. apply Z.rem_mul_r; lia. }
      pose proof (Z.mod_pos_bound N (2 ^ (j - 1)) P').
      assert (Hc : (N / 2 ^ (j - 1)) mod 2 = 0 \/ (N / 2 ^ (j - 1)) mod 2 = 1)
        by (pose proof (Z.mod_pos_bound (N / 2 ^ (j - 1)) 2 ltac:(lia)); lia).
      destruct Hc as [Hc|Hc]; rewrite Hc in E;
      destruct (2 ^ (j - 1) <=? N mod 2 ^ j) eqn:C1;
        destruct (N mod 2 ^ (j - 1) =? 0) eqn:C2;
        destruct (N mod 2 ^ j =? 0) eqn:C3; cbn; try reflexivity; exfalso;
        rewrite ?Z.leb_le, ?Z.leb_gt, ?Z.eqb_eq, ?Z.eqb_neq in *; lia.
    - apply Z.ltb_ge in J. assert (j = 0) by lia. subst j.
      cbn. now rewrite Z.mod_1_r. }
  assert (Hm0 : 0 <= m) by (rewrite Hm; apply Z.div_pos; lia).
  pose proof (Z.mod_pos_bound m 2 ltac:(lia)) as Hm2.
  destruct m as [|[q|q|]|q]; try lia; cbn [shr_1 shr_m shr_r shr_s];
    rewrite E1, E2, E3.
  - cbn. repeat split. symmetry. apply Z.leb_gt. lia.
  - assert (D : Z.pos q~1 / 2 = Z.pos q)
      by (symmetry; apply (Z.div_unique _ 2 _ 1); lia).
    assert (M : Z.pos q~1 mod 2 = 1)
      by (symmetry; apply (Z.mod_unique _ 2 (Z.pos q) 1); lia).
    rewrite D, M. split; [reflexivity|]. split; [|reflexivity].
    symmetry. apply Z.leb_le. lia.
  - assert (D : Z.pos q~0 / 2 = Z.pos q)
      by (symmetry; apply (Z.div_unique _ 2 _ 0); lia).
    assert (M : Z.pos q~0 mod 2 = 0)
      by (symmetry; apply (Z.mod_unique _ 2 (Z.pos q) 0); lia).
    rewrite D, M. split; [reflexivity|]. split; [|reflexivity].
    symmetry. apply Z.leb_gt. lia.
  - cbn. split; [reflexivity|]. split; [|reflexivity]. symmetry. apply Z.leb_le. lia.
Qed.

(** [p] further steps. *)
Lemma shr_iter (N : Z) (p : positive) :
  0 <= N ->
  forall (j : Z) (mrs : shr_record),
    0 <= j ->
    shr_m mrs = N / 2 ^ j /\
    shr_r mrs = (0 <? j) && (2 ^ (j - 1) <=? N mod 2 ^ j) /\
    shr_s mrs = (0 <? j) && negb (N mod 2 ^ (j - 1) =? 0) ->
    let j' := j + Zpos p in
    shr_m (iter_pos shr_1 p mrs) = N / 2 ^ j' /\
    shr_r (iter_pos shr_1 p mrs) = (0 <? j') && (2 ^ (j' - 1) <=? N mod 2 ^ j') /\
    shr_s (iter_pos shr_1 p mrs) = (0 <? j') && negb (N mod 2 ^ (j' - 1) =? 0).
Proof.
  intros HN. induction p as [p IH|p IH|]; intros j mrs Hj (Hm & Hr & Hs);
    cbn [iter_pos]; cbn zeta.
  - replace (j + Z.pos p~1) with (j + 1 + Z.pos p + Z.pos p) by lia.
    apply IH; [lia|]. apply IH; [lia|]. now apply shr_1_step.
  - replace (j + Z.pos p~0) with (j + Z.pos p + Z.pos p) by lia.
    apply IH; [lia|]. apply IH; [lia|]. auto.
  - now apply shr_1_step.
Qed.

(** A significand of exactly 53 digits is kept as it is. *)
Lemma round_exact (mz : positive) (e : Z) :
  Zpos (digits2_pos mz) = 53 -> -1074 <= e <= 971 ->
  binary_round_aux prec emax false (Zpos mz) e loc_Exact = S754_finite false mz e.
Proof.
  intros Hd He. unfold binary_round_aux, shr_fexp, Zdigits2.
  assert (F : fexp prec emax (Z.pos (digits2_pos mz) + e) - e = 0).
  { rewrite Hd. unfold fexp, emin, prec, emax. lia. }
  rewrite F. cbn [shr shr_record_of_loc shr_m loc_of_shr_record round_nearest_even].
  unfold Zdigits2. rewrite F. cbn [shr shr_m shr_record_of_loc].
  replace (e <=? emax - prec) with true; [reflexivity|].
  symmetry. apply Z.leb_le. unfold emax, prec. lia.
Qed.

(** A significand [P] of [s + 53] digits, [s > 0], is rounded to a
    multiple [W] of [2^s] at most [2^s / 2] away from it. *)
Lemma round_inexact (P : positive) (E s : Z) :
  0 < s ->
  2 ^ (s + 52) <= Zpos P < 2 ^ (s + 53) ->
  -1074 <= E + s -> E + s + 1 <= 971 ->
  exists m2 e2 W,
    binary_round_aux prec emax false (Zpos P) E loc_Exact = S754_finite false m2 e2 /\
    E <= e2 /\
    Zpos m2 * 2 ^ (e2 - E) = W /\
    W mod 2 ^ s = 0 /\
    2 * Z.abs (W - Zpos P) <= 2 ^ s.
Proof.
  intros Hs HP Hlo Hhi.
  assert (Hd : Zpos (digits2_pos P) = s + 53).
  { apply digits2_pos_unique. now replace (s + 53 - 1) with (s + 52) by lia. }
  assert (PS : 0 < 2 ^ s) by (apply Z.pow_pos_nonneg; lia).
  assert (E52 : 2 ^ (s + 52) = 2 ^ 52 * 2 ^ s) by (rewrite Z.pow_add_r by lia; lia).
  assert (E53 : 2 ^ (s + 53) = 2 ^ 53 * 2 ^ s) by (rewrite Z.pow_add_r by lia; lia).
  unfold binary_round_aux, shr_fexp. unfold Zdigits2 at 1.
  assert (F : fexp prec emax (Z.pos (digits2_pos P) + E) - E = s).
  { rewrite Hd. unfold fexp, emin, prec, emax. lia. }
  rewrite F. destruct s as [|sp|sp]; try lia.
  cbn [shr shr_record_of_loc].
  destruct (shr_iter (Zpos P) sp ltac:(lia) 0
              {| shr_m := Zpos P; shr_r := false; shr_s := false |} ltac:(lia))
    as (Hm & Hr & Hsb).
  { cbn. split; [now rewrite Z.div_1_r | auto]. }
  cbn zeta in *. rewrite Z.add_0_l in *.
  replace (0 <? Z.pos sp) with true in * by reflexivity. cbn [andb] in *.
  set (mrs := iter_pos shr_1 sp _) in *.
  set (U := 2 ^ Z.pos sp) in *.
  pose proof (Z.div_mod (Zpos P) U ltac:(lia)) as Hdm.
  pose proof (Z.mod_pos_bound (Zpos P) U PS) as Hrem.
  set (Q := Z.pos P / U) in *. set (Rm := Z.pos P mod U) in *.
  assert (HQ : 2 ^ 52 <= Q < 2 ^ 53).
  { split.
    - apply Z.div_le_lower_bound; lia.
    - apply Z.div_lt_upper_bound; lia. }
  assert (Hhalf : U = 2 ^ (Z.pos sp - 1) * 2).
  { unfold U. rewrite Z.mul_comm, <- Z.pow_succ_r by lia. f_equal. lia. }
  (* the rounded significand *)
  assert (Hm1 : exists m1,
             round_nearest_even (shr_m mrs) (loc_of_shr_record mrs) = m1 /\
             (m1 = Q \/ m1 = Q + 1) /\ 2 * Z.abs (m1 * U - Zpos P) <= U).
  { eexists. split; [reflexivity|].
    destruct mrs as [m r sb]. cbn [shr_m shr_r shr_s] in *. subst m.
    assert (Hmod : sb = false -> r = true -> Rm = 2 ^ (Z.pos sp - 1)).
    { intros -> ->. symmetry in Hr, Hsb.
      apply Z.leb_le in Hr. apply negb_false_iff, Z.eqb_eq in Hsb.
      assert (PS' : 0 < 2 ^ (Z.pos sp - 1)) by (apply Z.pow_pos_nonneg; lia).
      assert (Ex : Rm = Z.pos P mod 2 ^ (Z.pos sp - 1)
                        + 2 ^ (Z.pos sp - 1) * ((Z.pos P / 2 ^ (Z.pos sp - 1)) mod 2)).
      { unfold Rm. rewrite Hhalf. apply Z.rem_mul_r; lia. }
      rewrite Hsb in Ex.
      pose proof (Z.mod_pos_bound (Z.pos P / 2 ^ (Z.pos sp - 1)) 2 ltac:(lia)).
      nia. }
    destruct r, sb; cbn [loc_of_shr_record round_nearest_even].
    - symmetry in Hr. apply Z.leb_le in Hr. split; [now right|]. lia.
    - specialize (Hmod eq_refl eq_refl).
      destruct (Z.even Q); [split; [now left|]|split; [now right|]]; lia.
    - symmetry in Hr. apply Z.leb_gt in Hr. split; [now left|]. lia.
    - symmetry in Hr. apply Z.leb_gt in Hr. split; [now left|]. lia. }
  destruct Hm1 as (m1 & -> & Hm1 & Hclose).
  assert (Hm1b : 2 ^ 52 <= m1 <= 2 ^ 53) by lia.
  destruct m1 as [|q|q]; try lia.
  unfold Zdigits2.
  destruct (Z.eq_dec (Zpos q) (2 ^ 53)) as [Hq|Hq].
  - (* the rounding carried into a 54th digit *)
    injection Hq as ->.
    exists (4503599627370496)%positive, (E + Z.pos sp + 1), (2 ^ 53 * U).
    split.
    + assert (F2 : fexp prec emax (Z.pos (digits2_pos 9007199254740992) + (E + Z.pos sp))
                   - (E + Z.pos sp) = 1).
      { change (Z.pos (digits2_pos 9007199254740992)) with 54.
        unfold fexp, emin, prec, emax. lia. }
      rewrite F2. cbn [shr iter_pos shr_record_of_loc shr_1 shr_m].
      replace (E + Z.pos sp + 1 <=? emax - prec) with true; [reflexivity|].
      symmetry. apply Z.leb_le. unfold emax, prec. lia.
    + split; [lia|]. split.
      * replace (E + Z.pos sp + 1 - E) with (Z.pos sp + 1) by lia.
        rewrite Z.pow_add_r by lia. fold U. lia.
      * split; [apply Z.mod_mul; lia|]. exact Hclose.
  - exists q, (E + Z.pos sp), (Zpos q * U).
    split.
    + assert (Hdq : Zpos (digits2_pos q) = 53).
      { apply digits2_pos_unique. change (53 - 1) with 52. lia. }
      assert (F2 : fexp prec emax (Z.pos (digits2_pos q) + (E + Z.pos sp))
                   - (E + Z.pos sp) = 0).
      { rewrite Hdq. unfold fexp, emin, prec, emax. lia. }
      rewrite F2. cbn [shr shr_record_of_loc shr_m].
      replace (E + Z.pos sp <=? emax - prec) with true; [reflexivity|].
      symmetry. apply Z.leb_le. unfold emax, prec. lia.
    + split; [lia|]. split.
      * replace (E + Z.pos sp - E) with (Z.pos sp) by lia. reflexivity.
      * split; [apply Z.mod_mul; lia|]. exact Hclose.
Qed.

Lemma iter_xO (p k : positive) : Zpos (Pos.iter xO p k) = Zpos p * 2 ^ Zpos k.
Proof.
  induction k as [|k IH] using Pos.peano_ind.
  - cbn. lia.
  - rewrite Pos.iter_succ, Pos2Z.inj_xO, IH, Pos2Z.inj_succ, Z.pow_succ_r by lia. lia.
Qed.

(** The conversion of a positive integer below [2^53] is exact: the
    integer scaled to 53 digits. *)
Lemma float_of_int_pos (p : positive) (d : Z) :
  Zpos (digits2_pos p) = d -> d < 53 ->
  exists mz,
    float_of_int (Zpos p) = S754_finite false mz (d - 53) /\
    Zpos mz = Zpos p * 2 ^ (53 - d).
Proof.
  intros Hd Hlt. unfold float_of_int, binary_normalize, binary_round.
  assert (F : fexp prec emax (Z.pos (digits2_pos p) + 0) = d - 53).
  { rewrite Hd. unfold fexp, emin, prec, emax. lia. }
  rewrite F. unfold shl_align.
  assert (Hd0 : 0 < d) by lia.
  destruct (d - 53 - 0) as [|k|k] eqn:K; try lia.
  exists (Pos.iter xO p k).
  assert (Hk : Zpos k = 53 - d) by lia.
  pose proof (digits2_pos_bounds p) as Hb. rewrite Hd in Hb.
  assert (Hmz : Zpos (Pos.iter xO p k) = Zpos p * 2 ^ (53 - d)).
  { now rewrite iter_xO, Hk. }
  split; [|exact Hmz].
  apply round_exact; [|lia].
  apply digits2_pos_unique. rewrite Hmz. change (53 - 1) with 52.
  assert (P1 : 0 < 2 ^ (53 - d)) by (apply Z.pow_pos_nonneg; lia).
  assert (E1 : 2 ^ 52 = 2 ^ (d - 1) * 2 ^ (53 - d)).
  { rewrite <- Z.pow_add_r by lia. f_equal. lia. }
  assert (E2 : 2 ^ 53 = 2 ^ d * 2 ^ (53 - d)).
  { rewrite <- Z.pow_add_r by lia. f_equal. lia. }
  rewrite E1, E2. split; [apply Z.mul_le_mono_nonneg_r | apply Z.mul_lt_mono_pos_r]; lia.
Qed.

(** [int(n * 0.85)] is the floor of the exact [85 n / 100]. *)
Lemma split_index_floor (n : nat) :
  Z.of_nat n < 2 ^ 48 ->
  Z.of_nat (split_index n) = 85 * Z.of_nat n / 100.
Proof.
  intros Hn. unfold split_index.
  destruct n as [|n']; [reflexivity|].
  set (n := Datatypes.S n') in *.
  destruct (Z.of_nat n) as [|p|p] eqn:Hp; try lia.
  pose proof (digits2_pos_bounds p) as Hb.
  set (d := Zpos (digits2_pos p)) in *.
  assert (Hd0 : 0 < d) by (unfold d; lia).
  assert (Hd : d <= 48).
  { destruct (Z.le_gt_cases d 48) as [|H]; [assumption|]. exfalso.
    assert (2 ^ 48 <= 2 ^ (d - 1)) by (apply Z.pow_le_mono_r; lia). lia. }
  destruct (float_of_int_pos p d eq_refl ltac:(lia)) as (mz & -> & Hmz).
  unfold TRAIN_VAL_SPLIT, SFmul. cbn [xorb].
  set (k := 53 - d) in *.
  set (Kp := 2 ^ k) in *.
  assert (HK : 32 <= Kp).
  { change 32 with (2 ^ 5). apply Z.pow_le_mono_r; lia. }
  set (X := Zpos mz) in *.
  assert (HX : 2 ^ 52 <= X < 2 ^ 53).
  { rewrite Hmz. unfold Kp, k.
    assert (E1 : 2 ^ 52 = 2 ^ (d - 1) * 2 ^ (53 - d)).
    { rewrite <- Z.pow_add_r by lia. f_equal. lia. }
    assert (E2 : 2 ^ 53 = 2 ^ d * 2 ^ (53 - d)).
    { rewrite <- Z.pow_add_r by lia. f_equal. lia. }
    assert (P1 : 0 < 2 ^ (53 - d)) by (apply Z.pow_pos_nonneg; lia).
    rewrite E1, E2.
    split; [apply Z.mul_le_mono_nonneg_r | apply Z.mul_lt_mono_pos_r]; lia. }
  (* the exact product and its number of digits *)
  set (P := (mz * 7656119366529843)%positive).
  assert (HP : Zpos P = X * 7656119366529843) by (unfold P, X; lia).
  pose proof (digits2_pos_bounds P) as HbP.
  set (s := Zpos (digits2_pos P) - 53) in *.
  replace (Zpos (digits2_pos P) - 1) with (s + 52) in HbP by (unfold s; lia).
  replace (Zpos (digits2_pos P)) with (s + 53) in HbP by (unfold s; lia).
  change (2 ^ 52) with 4503599627370496 in HX.
  change (2 ^ 53) with 9007199254740992 in HX.
  assert (Hs : 52 <= s <= 53).
  { split.
    - destruct (Z.le_gt_cases 52 s) as [|H]; [assumption|]. exfalso.
      assert (2 ^ (s + 53) <= 2 ^ 104) by (apply Z.pow_le_mono_r; lia).
      change (2 ^ 104) with (4503599627370496 * 4503599627370496) in *. nia.
    - destruct (Z.le_gt_cases s 53) as [|H]; [assumption|]. exfalso.
      assert (2 ^ 106 <= 2 ^ (s + 52)) by (apply Z.pow_le_mono_r; lia).
      change (2 ^ 106) with (9007199254740992 * 9007199254740992) in *. nia. }
  destruct (round_inexact P (d - 53 + -53) s ltac:(lia) HbP ltac:(lia) ltac:(lia))
    as (m2 & e2 & W & -> & He2 & HW & Hmul & Hclose).
  set (E := d - 53 + -53) in *.
  set (T := 2 ^ (- E)).
  assert (HT : T = Kp * 9007199254740992).
  { unfold T, E, Kp, k. replace (- (d - 53 + -53)) with (53 - d + 53) by lia.
    rewrite Z.pow_add_r by lia. reflexivity. }
  assert (PT : 0 < T) by lia.
  (* the integer part of the rounded product *)
  assert (Hint : int_of_float (S754_finite false m2 e2) = W / T).
  { unfold int_of_float, cond_Zopp. destruct (0 <=? e2) eqn:C.
    - apply Z.leb_le in C. rewrite Z.shiftl_mul_pow2 by lia.
      rewrite <- HW. replace (e2 - E) with (e2 + - E) by lia.
      rewrite Z.pow_add_r by (unfold E; lia). fold T.
      rewrite Z.mul_assoc, Z.div_mul by lia. reflexivity.
    - apply Z.leb_gt in C. rewrite Z.shiftr_div_pow2 by lia.
      rewrite <- HW.
      assert (ET : T = 2 ^ (- e2) * 2 ^ (e2 - E)).
      { unfold T. rewrite <- Z.pow_add_r by lia. f_equal. lia. }
      rewrite ET, Z.div_mul_cancel_r; [reflexivity| |];
        apply Z.pow_nonzero; lia. }
  rewrite Hint.
  (* arithmetic on the exact quantities *)
  set (q := 85 * Z.pos p / 100).
  assert (Hq : exists r, 17 * Z.pos p = 20 * q + r /\ 0 <= r < 20).
  { exists ((17 * Z.pos p) mod 20). unfold q.
    replace (85 * Z.pos p) with (5 * (17 * Z.pos p)) by lia.
    change 100 with (5 * 20). rewrite Z.div_mul_cancel_l by lia.
    split; [apply Z.div_mod; lia | apply Z.mod_pos_bound; lia]. }
  destruct Hq as (r & Hq & Hr).
  assert (Hq0 : 0 <= q) by (unfold q; apply Z.div_pos; lia).
  enough (HWq : q * T <= W < (q + 1) * T).
  { rewrite Z2Nat.id by (apply Z.div_pos; lia).
    symmetry. apply (Z.div_unique W T q (W - q * T)); lia. }
  set (U := 2 ^ s) in *.
  assert (PS : 0 < U) by (apply Z.pow_pos_nonneg; lia).
  assert (HS52 : 2 ^ (s + 52) = 4503599627370496 * U).
  { rewrite Z.pow_add_r by lia. unfold U. change (2 ^ 52) with 4503599627370496. lia. }
  assert (HS53 : 2 ^ (s + 53) = 9007199254740992 * U).
  { rewrite Z.pow_add_r by lia. unfold U. change (2 ^ 53) with 9007199254740992. lia. }
  rewrite HS52, HS53, HP in HbP. rewrite HP in Hclose.
  (* 20 times the exact product, in units of 2^-(k+53) *)
  assert (H20 : 20 * (X * 7656119366529843) = 20 * (q * T) + r * T - 4 * X).
  { assert (Er : r = 17 * Z.pos p - 20 * q) by lia.
    rewrite Er, HT, Hmz. ring. }
  assert (HrT : 0 <= r * T <= 19 * T) by nia.
  assert (HrT1 : 1 <= r -> T <= r * T) by nia.
  assert (HTX : 32 * X < T) by lia.
  (* [q * T] and [W] are multiples of [2^s] *)
  assert (HTS : exists c, T = c * U).
  { exists (2 ^ (- E - s)). unfold T, U. rewrite <- Z.pow_add_r by (unfold E; lia).
    f_equal. lia. }
  destruct HTS as (c & HTS).
  apply Z.mod_divide in Hmul; [|lia]. destruct Hmul as (w & Hw).
  split.
  - destruct (Z.eq_dec r 0) as [->|Hr0].
    + destruct (Z.le_gt_cases (q * T) W) as [|Hlt]; [assumption|]. exfalso.
      assert (W <= q * T - U).
      { rewrite Hw, HTS, Z.mul_assoc in *.
        assert (w < q * c) by nia. nia. }
      lia.
    + specialize (HrT1 ltac:(lia)). lia.
  - lia.
Qed.

(** ** The split *)

Section SplitFacts.

Variable State : Type.
Variable channel_first : State -> State.

Lemma moveaxis_length (x : ndarray State) (xs : list (field State)) :
  moveaxis_3_1 State channel_first x = Ok xs -> length xs = length (rows x).
Proof.
  unfold moveaxis_3_1. destruct (ndim4 x); [|discriminate].
  intros [= <-]. apply length_map.
Qed.

Lemma combine_skipn {A B : Type} (k : nat) (xs : list A) (ys : list B) :
  combine (skipn k xs) (skipn k ys) = skipn k (combine xs ys).
Proof.
  revert xs ys; induction k as [|k IH]; intros [|x xs] [|y ys]; cbn;
    try reflexivity.
  - now destruct (skipn k xs).
  - apply IH.
Qed.

Lemma firstn_min_length {A : Type} (k : nat) (xs : list A) :
  firstn (Nat.min k (length xs)) xs = firstn k xs.
Proof.
  destruct (Nat.le_ge_cases k (length xs)) as [H|H].
  - now rewrite Nat.min_l.
  - rewrite Nat.min_r by assumption. now rewrite firstn_all, firstn_all2.
Qed.

(** On parallel arrays of [n] samples, the two datasets are the first
    [int(n * TRAIN_VAL_SPLIT)] samples and the samples from that
    position on.  Below [2^48] samples the binary64 product loses
    nothing: the training set has [floor(85 n / 100)] samples. *)
Lemma split_datasets_spec (x : ndarray State) (y : list Z)
  (train_set test_set : dataset State) :
  length (rows x) = length y ->
  split_datasets State channel_first (x, y) = Ok (train_set, test_set) ->
  exists xs,
    moveaxis_3_1 State channel_first x = Ok xs /\
    let all := combine xs y in
    let n := length all in
    train_set = firstn (split_index n) all /\
    test_set = skipn (length train_set) all /\
    train_set ++ test_set = all /\
    (length train_set + length test_set = n)%nat /\
    (Z.of_nat n < 2 ^ 48 ->
     Z.of_nat (split_index n) = 85 * Z.of_nat n / 100 /\
     Z.of_nat (length train_set) = 85 * Z.of_nat n / 100).
Proof.
  intros Hlen H. unfold split_datasets in H.
  apply bind_Ok_inv in H as (xs & Hxs & H). exists xs. split; [exact Hxs|].
  pose proof (moveaxis_length x xs Hxs) as Hl. rewrite Hlen in Hl.
  injection H as <- <-. cbn zeta.
  assert (Hn : length (combine xs y) = length y).
  { rewrite length_combine. lia. }
  rewrite Hn, Hl.
  set (k := split_index (length y)).
  assert (E1 : combine (firstn k xs) (firstn k y) = firstn k (combine xs y)).
  { symmetry. apply combine_firstn. }
  assert (E2 : length (firstn k xs) = length (firstn k y)).
  { rewrite !length_firstn. lia. }
  rewrite E2, combine_skipn, E1.
  assert (E3 : length (firstn k (combine xs y)) = length (firstn k y)).
  { rewrite !length_firstn. lia. }
  rewrite E3.
  assert (E4 : firstn k (combine xs y)
               = firstn (length (firstn k y)) (combine xs y)).
  { rewrite length_firstn, <- Hn. symmetry. apply firstn_min_length. }
  split; [reflexivity|]. split; [reflexivity|]. split; [|split].
  - rewrite E4 at 1. apply firstn_skipn.
  - rewrite length_skipn, length_firstn, Hn. lia.
  - intros Hb. pose proof (split_index_floor (length y) Hb) as Hk. fold k in Hk.
    split; [exact Hk|]. rewrite length_firstn.
    assert (85 * Z.of_nat (length y) / 100 <= Z.of_nat (length y)).
    { apply Z.div_le_upper_bound; lia. }
    lia.
Qed.

End SplitFacts.

(** ** The training loop *)

Section TrainingFacts.

Variable State : Type.
Variable available_actions : list vec3.
Variable channel_first : State -> State.
Variable Model : Type.
Variable Weights : Type.
Variable Loader : Type.
Variable state_dict : Model -> Weights.
Variable summary : Model -> result Model.
Variable DataLoader : dataset State -> nat -> bool -> nat -> result Loader.
Variable train_epoch : nat -> Model -> Loader -> result Model.
Variable test : Model -> Loader -> result unit.
Variable input : data_file State.
Variable rngs : nat -> rng State.

Local Abbreviation loop := (epoch_loop state_dict train_epoch test).
Local Abbreviation create :=
  (create_datasets State available_actions channel_first Weights Loader
                   DataLoader input rngs).
Local Abbreviation training :=
  (train State available_actions channel_first Model Weights Loader state_dict
         summary DataLoader train_epoch test input rngs).
Local Abbreviation running :=
  (run State available_actions channel_first Model Weights Loader state_dict
       summary DataLoader train_epoch test input rngs).

(** The loop appends a prefix of the events of its epochs, all of them
    when it returns, and calls [read_data] no more. *)
Lemma epoch_loop_trace (epochs : list nat) (model : Model) (tl vl : Loader)
  (w : world Weights) :
  exists new rest,
    trace (fst (loop epochs model tl vl w)) = trace w ++ new /\
    new ++ rest = flat_map epoch_events epochs /\
    (snd (loop epochs model tl vl w) = Ok tt -> rest = []) /\
    reads (fst (loop epochs model tl vl w)) = reads w.
Proof.
  revert model w; induction epochs as [|e es IH]; intros model w.
  - exists [], []. cbn. rewrite app_nil_r. auto.
  - cbn [epoch_loop]. unfold pbind, emit, lift, save. cbn [fst snd].
    destruct (train_epoch e model tl) as [model'|x].
    + destruct (test model' vl) as [[]|x].
      * match goal with
        | |- context [loop es model' tl vl ?w0] =>
            destruct (IH model' w0) as (new & rest & Ht & Hn & Hr & Hreads)
        end.
        exists (epoch_events e ++ new), rest.
        split; [|split; [|split]].
        -- rewrite Ht. cbn [trace]. unfold epoch_events.
           rewrite <- !app_assoc. reflexivity.
        -- cbn [flat_map]. rewrite <- app_assoc, Hn. reflexivity.
        -- exact Hr.
        -- rewrite Hreads. reflexivity.
      * exists [ev_train_epoch e; ev_test e],
               (ev_save (path_join DATA_DIR MODEL_FILE) :: flat_map epoch_events es).
        cbn [fst snd trace reads flat_map app]. rewrite <- app_assoc.
        repeat split; auto. discriminate.
    + exists [ev_train_epoch e],
             (ev_test e :: ev_save (path_join DATA_DIR MODEL_FILE)
                :: flat_map epoch_events es).
      cbn [fst snd trace reads flat_map app]. repeat split; auto. discriminate.
Qed.

(** When no framework call raises, the loop returns. *)
Lemma epoch_loop_returns (epochs : list nat) (model : Model) (tl vl : Loader)
  (w : world Weights) :
  (forall e m, exists m', train_epoch e m tl = Ok m') ->
  (forall m, test m vl = Ok tt) ->
  snd (loop epochs model tl vl w) = Ok tt.
Proof.
  intros Htr Hte. revert model w; induction epochs as [|e es IH]; intros model w.
  - reflexivity.
  - cbn [epoch_loop]. unfold pbind, emit, lift, save.
    destruct (Htr e model) as (m' & ->). rewrite Hte. apply IH.
Qed.

(** [create_datasets] enters [read_data] once, whatever comes of it. *)
Lemma create_datasets_world (w : world Weights) :
  trace (fst (create w)) = trace w ++ [ev_read_data] /\
  reads (fst (create w)) = S (reads w) /\
  model_file (fst (create w)) = model_file w.
Proof.
  unfold create_datasets, pbind, read_data_call, lift, ret.
  destruct (read_data available_actions input (rngs (reads w))) as [xy|e]; cbn.
  - destruct (split_datasets State channel_first xy) as [[tr te]|e]; cbn; auto.
    destruct (DataLoader tr BATCH_SIZE true 2%nat); cbn; auto.
    destruct (DataLoader te BATCH_SIZE false 2%nat); cbn; auto.
  - auto.
Qed.

Lemma create_datasets_raises (w : world Weights) (e : exn) :
  read_data available_actions input (rngs (reads w)) = Raise e ->
  snd (create w) = Raise e.
Proof.
  intros H. unfold create_datasets, pbind, read_data_call. now rewrite H.
Qed.

Lemma create_datasets_inv (w w' : world Weights) (tl vl : Loader) :
  create w = (w', Ok (tl, vl)) ->
  exists xy train_set test_set,
    read_data available_actions input (rngs (reads w)) = Ok xy /\
    split_datasets State channel_first xy = Ok (train_set, test_set) /\
    DataLoader train_set BATCH_SIZE true 2%nat = Ok tl /\
    DataLoader test_set BATCH_SIZE false 2%nat = Ok vl.
Proof.
  unfold create_datasets, pbind, read_data_call, lift, ret.
  destruct (read_data available_actions input (rngs (reads w))) as [xy|e];
    [|discriminate].
  destruct (split_datasets State channel_first xy) as [[tr te]|e] eqn:Es;
    [|discriminate].
  destruct (DataLoader tr BATCH_SIZE true 2%nat) as [l1|e] eqn:E1; [|discriminate].
  destruct (DataLoader te BATCH_SIZE false 2%nat) as [l2|e] eqn:E2; [|discriminate].
  intros [= _ <- <-]. exists xy, tr, te. auto.
Qed.

(** C6.  When [create_datasets] returns its two loaders, they were
    built over two datasets cut from the [n] samples [read_data]
    returned (with the channel axis moved): the training set is the
    first [int(n * TRAIN_VAL_SPLIT)] samples, the validation set is the
    samples from that position on, and one after the other they are
    the whole list, each sample falling in exactly one of them.  Below
    [2^48] samples the binary64 product loses nothing: the training
    set has [floor(85 n / 100)] samples. *)
Theorem split_train_validation (w w' : world Weights) (tl vl : Loader) :
  create w = (w', Ok (tl, vl)) ->
  exists x y xs train_set test_set,
    read_data available_actions input (rngs (reads w)) = Ok (x, y) /\
    moveaxis_3_1 State channel_first x = Ok xs /\
    DataLoader train_set BATCH_SIZE true 2%nat = Ok tl /\
    DataLoader test_set BATCH_SIZE false 2%nat = Ok vl /\
    let all := combine xs y in
    let n := length all in
    train_set = firstn (split_index n) all /\
    test_set = skipn (length train_set) all /\
    train_set ++ test_set = all /\
    (length train_set + length test_set = n)%nat /\
    (Z.of_nat n < 2 ^ 48 ->
     Z.of_nat (split_index n) = 85 * Z.of_nat n / 100 /\
     Z.of_nat (length train_set) = 85 * Z.of_nat n / 100).
Proof.
  intros H. apply create_datasets_inv in H
    as ([x y] & train_set & test_set & Hrd & Hsplit & Htl & Hvl).
  pose proof (read_data_parallel _ _ _ _ _ _ _ Hrd) as Hlen.
  destruct (split_datasets_spec State channel_first x y train_set test_set Hlen Hsplit)
    as (xs & Hxs & Hspec).
  exists x, y, xs, train_set, test_set. auto.
Qed.

Lemma count_reads_epochs (epochs : list nat) :
  count_reads (flat_map epoch_events epochs) = 0%nat.
Proof.
  unfold count_reads. induction epochs as [|e es IH]; cbn; [reflexivity | exact IH].
Qed.

Local Abbreviation entered w :=
  {| trace := trace w ++ [ev_read_data];
     reads := S (reads w);
     model_file := model_file w;
     writes := writes w |}.

Lemma train_unfold (model : Model) (w : world Weights) :
  training model w
  = match summary model with
    | Ok model' =>
        match create w with
        | (w1, Ok (tl, vl)) => loop (seq 0 EPOCHS) model' tl vl w1
        | (w1, Raise x) => (w1, Raise x)
        end
    | Raise x => (w, Raise x)
    end.
Proof.
  unfold train, pbind, lift. destruct (summary model) as [model'|x]; [|reflexivity].
  destruct (create w) as [w1 [[tl vl]|x]]; reflexivity.
Qed.

Lemma run_unfold (model : Model) (w : world Weights) :
  running model w
  = match read_data available_actions input (rngs (reads w)) with
    | Ok _ => training model (entered w)
    | Raise x => (entered w, Raise x)
    end.
Proof.
  unfold run, module_body, pbind, read_data_call, ret.
  destruct (read_data available_actions input (rngs (reads w))); reflexivity.
Qed.

(** Loading the module enters [read_data] once, and so does a call of
    [train] that gets past [summary]. *)
Lemma module_body_reads (w : world Weights) :
  reads (fst (module_body State available_actions Weights input rngs w))
  = S (reads w).
Proof.
  unfold module_body, pbind, read_data_call, ret.
  destruct (read_data available_actions input (rngs (reads w))); reflexivity.
Qed.

Lemma train_reads (model model' : Model) (w : world Weights) :
  summary model = Ok model' ->
  reads (fst (training model w)) = S (reads w).
Proof.
  intros Hs. rewrite train_unfold, Hs.
  pose proof (create_datasets_world w) as (_ & Hrd & _).
  destruct (create w) as [w1 [[tl vl]|x]]; cbn [fst snd] in *; [|exact Hrd].
  destruct (epoch_loop_trace (seq 0 EPOCHS) model' tl vl w1)
    as (new & rest & _ & _ & _ & Hreads).
  now rewrite Hreads.
Qed.

Lemma create_datasets_writes (w : world Weights) :
  writes (fst (create w)) = writes w.
Proof.
  unfold create_datasets, pbind, read_data_call, lift, ret.
  destruct (read_data available_actions input (rngs (reads w))) as [xy|e]; cbn.
  - destruct (split_datasets State channel_first xy) as [[tr te]|e]; cbn; auto.
    destruct (DataLoader tr BATCH_SIZE true 2%nat); cbn; auto.
    destruct (DataLoader te BATCH_SIZE false 2%nat); cbn; auto.
  - auto.
Qed.

Lemma count_saves_app (evs evs' : list event) :
  count_saves (evs ++ evs') = (count_saves evs + count_saves evs')%nat.
Proof. unfold count_saves. now rewrite filter_app, length_app. Qed.

Lemma firstn_seq_le (k n a : nat) :
  (k <= n)%nat -> firstn k (seq a n) = seq a k.
Proof.
  revert n a; induction k as [|k IH]; intros [|n] a H; cbn; try reflexivity; try lia.
  f_equal. apply IH. lia.
Qed.

Lemma last_cons_default {A : Type} (x : A) (l : list A) (d d' : A) :
  last (x :: l) d = last (x :: l) d'.
Proof.
  revert x; induction l as [|y l IH]; intros x; [reflexivity|].
  exact (IH y).
Qed.

(** The file as the writes [models] leave it. *)
Local Abbreviation file_after models before :=
  (last (map (fun m : Model => Some (state_dict m)) models) before).

Local Abbreviation written models :=
  (map (fun m : Model => (path_join DATA_DIR MODEL_FILE, state_dict m)) models).

(** The loop writes the file once per epoch that got through
    [train_epoch] and [test], each time with the weights of the model
    as the training passes so far left it. *)
Lemma epoch_loop_writes (epochs : list nat) (model : Model) (tl vl : Loader)
  (w : world Weights) :
  exists models,
    writes (fst (loop epochs model tl vl w)) = writes w ++ written models /\
    count_saves (trace (fst (loop epochs model tl vl w)))
    = (count_saves (trace w) + length models)%nat /\
    (length models <= length epochs)%nat /\
    (snd (loop epochs model tl vl w) = Ok tt <-> length models = length epochs) /\
    (forall k m, nth_error models k = Some m ->
                 after_epochs train_epoch tl (firstn (S k) epochs) model = Ok m) /\
    model_file (fst (loop epochs model tl vl w)) = file_after models (model_file w).
Proof.
  revert model w; induction epochs as [|e es IH]; intros model w.
  - exists []. cbn. rewrite app_nil_r. repeat split; auto.
    intros [|k] m; discriminate.
  - cbn [epoch_loop]. unfold pbind, emit, lift, save. cbn [fst snd].
    destruct (train_epoch e model tl) as [model'|x] eqn:Et.
    + destruct (test model' vl) as [[]|x].
      * match goal with
        | |- context [loop es model' tl vl ?w0] =>
            destruct (IH model' w0) as (ms & Hw & Hc & Hlen & Hr & Hnth & Hfile);
            set (w1 := w0) in *
        end.
        exists (model' :: ms). cbn [length].
        split; [|split; [|split; [|split; [|split]]]].
        -- rewrite Hw. unfold w1. cbn [writes map]. now rewrite <- app_assoc.
        -- rewrite Hc. unfold w1. cbn [trace].
           rewrite !count_saves_app. cbn. lia.
        -- lia.
        -- rewrite Hr. lia.
        -- intros [|k] m Hm; cbn [nth_error] in Hm; cbn [firstn after_epochs];
             rewrite Et; cbn [bind].
           ++ congruence.
           ++ now apply Hnth.
        -- rewrite Hfile. unfold w1. cbn [model_file].
           destruct ms as [|m ms]; [reflexivity|].
           cbn [map]. exact (last_cons_default _ _ _ (model_file w)).
      * exists []. cbn [fst snd trace model_file writes length map last].
        rewrite !count_saves_app, app_nil_r. cbn.
        repeat split; try lia; try discriminate.
        intros [|k] m; discriminate.
    + exists []. cbn [fst snd trace model_file writes length map last].
      rewrite !count_saves_app, app_nil_r. cbn.
      repeat split; try lia; try discriminate.
      intros [|k] m; discriminate.
Qed.


(** C8, as the code has it.  A run that loads the module and trains to
    the end has entered [read_data] twice: once for the statement at
    module level (line 73), whose value is discarded, and once from
    [create_datasets] (line 92). *)
Theorem read_data_entered_twice (model : Model) (w : world Weights) :
  snd (running model w) = Ok tt ->
  reads (fst (running model w)) = (2 + reads w)%nat /\
  exists new,
    trace (fst (running model w)) = trace w ++ new /\
    new = ev_read_data :: ev_read_data :: flat_map epoch_events (seq 0 EPOCHS) /\
    count_reads new = 2%nat.
Proof.
  rewrite run_unfold.
  destruct (read_data available_actions input (rngs (reads w))) as [xy0|x];
    [|discriminate].
  rewrite train_unfold.
  destruct (summary model) as [model'|x]; [|discriminate].
  pose proof (create_datasets_world (entered w)) as (Ht & Hrd & _).
  destruct (create (entered w)) as [w1 [[tl vl]|x]]; cbn [fst snd] in *;
    [|discriminate].
  intros Hok.
  destruct (epoch_loop_trace (seq 0 EPOCHS) model' tl vl w1)
    as (new & rest & Hn & Hs & Hr & Hreads).
  specialize (Hr Hok). subst rest. rewrite app_nil_r in Hs. subst new.
  cbn [trace reads] in Ht, Hrd.
  split; [rewrite Hreads, Hrd; reflexivity|].
  eexists. split; [|split; [reflexivity|]].
  - rewrite Hn, Ht, <- !app_assoc. reflexivity.
  - change (S (S (count_reads (flat_map epoch_events (seq 0 EPOCHS)))) = 2%nat).
    now rewrite count_reads_epochs.
Qed.

(** A failing input makes [read_data] raise. *)
Lemma read_data_raises (m : Z) (g : rng State) :
  failing_input input ->
  exists e, read_data_with available_actions m input g = Raise e.
Proof.
  intros Hf.
  destruct (read_data_with available_actions m input g) as [res|e] eqn:E; [|eauto].
  exfalso. apply read_data_with_wellformed in E as (data & Hin & Hne & Hwf).
  destruct Hf as [Hf|[Hf|(data' & Hf & Hbad)]]; try congruence.
  assert (data' = data) by congruence. subst data'.
  destruct Hbad as [->|Hbad]; [congruence|].
  apply Exists_exists in Hbad as (d & Hd & Hbad).
  apply (proj1 (Forall_forall _ _) Hwf) in Hd as [Hlen (v & Hv)].
  destruct Hbad as [Hbad|Hbad]; [lia | congruence].
Qed.


End TrainingFacts.

(** ** Four transitions, end to end *)

Section ListFacts.

Context {A : Type}.
Variable q : A -> bool.

Lemma perm_filter (l l' : list A) :
  Permutation l l' -> Permutation (filter q l) (filter q l').
Proof.
  induction 1 as [|x l l' _ IH|x y l|l l' l'' _ IH1 _ IH2]; cbn.
  - constructor.
  - destruct (q x); [now constructor | exact IH].
  - destruct (q x), (q y); try reflexivity. constructor.
  - now transitivity (filter q l').
Qed.

Lemma perm_partition (l : list A) :
  Permutation l (filter q l ++ filter (fun x => negb (q x)) l).
Proof.
  induction l as [|x l IH]; cbn; [constructor|].
  destruct (q x); cbn.
  - now constructor.
  - now apply Permutation_cons_app.
Qed.

Lemma filter_repeat (x : A) (n : nat) :
  filter q (repeat x n) = if q x then repeat x n else [].
Proof.
  induction n as [|n IH]; cbn; [now destruct (q x)|].
  rewrite IH. now destruct (q x).
Qed.

End ListFacts.

Lemma index_In (l : list vec3) (v : vec3) (a : Z) : index l v = Ok a -> In v l.
Proof.
  intros H. apply index_from_inv in H as (_ & H & _). eapply nth_error_In, H.
Qed.

Lemma index_injective (l : list vec3) (u v : vec3) (a : Z) :
  index l u = Ok a -> index l v = Ok a -> u = v.
Proof.
  intros Hu Hv. apply index_from_inv in Hu as (_ & Hu & _).
  apply index_from_inv in Hv as (_ & Hv & _). congruence.
Qed.

Section FourTransitions.

Variable State : Type.
Variable available_actions : list vec3.

Local Abbreviation label := (label_of available_actions).

Lemma label_of_index (d : record State) (v : vec3) (a : Z) :
  NoDup available_actions -> action_of d = Some v ->
  index available_actions v = Ok a -> label d = a.
Proof.
  intros Hnd Hv Ha. unfold label_of. rewrite Hv. now apply index_is_label.
Qed.

(** One transition per pattern (accelerate, brake, left+brake) and one
    whose action [u] is no pattern of the enumeration, under any
    multiplier [m]: the call returns; the labels returned are the
    index of brake and the index of left+brake, each as often as the
    inflation made copies, and the index of accelerate once if the one
    draw exceeds 0.7 and not at all otherwise. *)
Lemma transitions_under_multiplier (m : Z) (g : rng State) (s0 s1 s2 s3 : State)
  (u : vec3) (ia ib il : Z) :
  NoDup available_actions ->
  index available_actions accelerate = Ok ia ->
  index available_actions brake = Ok ib ->
  index available_actions left_brake = Ok il ->
  ~ In u available_actions ->
  let tr := fun (s : State) (a : vec3) => [Img s; Act a; Obj 0; Obj 0; Obj 0] in
  let data := [tr s0 accelerate; tr s1 brake; tr s2 left_brake; tr s3 u] in
  let copies := if 1 <? m then S (Z.to_nat m) else 1%nat in
  exists states act_classes,
    read_data_with available_actions m (file_pickle data) g
    = Ok (states, act_classes) /\
    length (rows states) = length act_classes /\
    Permutation act_classes
      ((if exceeds_0_7 (hd 0 (rand g 1)) then [ia] else [])
       ++ repeat ib copies ++ repeat il copies).
Proof.
  intros Hnd Hia Hib Hil Hu tr data copies.
  set (ta := tr s0 accelerate). set (tb := tr s1 brake).
  set (tl := tr s2 left_brake). set (tu := tr s3 u).
  (* the labels of the four tuples *)
  assert (La : label ta = ia) by (now apply (label_of_index ta accelerate)).
  assert (Lb : label tb = ib) by (now apply (label_of_index tb brake)).
  assert (Ll : label tl = il) by (now apply (label_of_index tl left_brake)).
  assert (Lu : label tu = -1) by (now apply (label_of_sentinel _ _ tu u)).
  assert (Hia0 : 0 <= ia) by (apply index_from_inv in Hia; lia).
  assert (Hib0 : 0 <= ib) by (apply index_from_inv in Hib; lia).
  assert (Hil0 : 0 <= il) by (apply index_from_inv in Hil; lia).
  assert (Hab : ib <> ia).
  { intros E. rewrite E in Hib. pose proof (index_injective _ _ _ _ Hia Hib). discriminate. }
  assert (Hal : il <> ia).
  { intros E. rewrite E in Hil. pose proof (index_injective _ _ _ _ Hia Hil). discriminate. }
  (* the call returns *)
  destruct (read_data_with_returns State available_actions m data g)
    as (states & act_classes & Hret).
  { discriminate. }
  { repeat constructor; eexists; reflexivity. }
  { eapply index_In, Hia. }
  exists states, act_classes. split; [exact Hret|].
  apply read_data_with_inv in Hret
    as (data' & inflated & accel & Hf & Hinf & _ & Hacc & Hrows & _ & Hcls).
  injection Hf as <-. rewrite Hia in Hacc. injection Hacc as <-.
  cbn zeta in Hrows, Hcls.
  split; [rewrite Hrows, Hcls; unfold column; now rewrite !length_map|].
  (* the recognised tuples, up to order *)
  set (rec := fun d : record State => negb (label d =? -1)) in *.
  set (p := fun d : record State => negb (label d =? ia)).
  set (R := filter rec (shuffle g inflated)) in *.
  assert (Hmask : not_equal (map label R) ia = map p R).
  { unfold not_equal. now rewrite map_map. }
  rewrite Hmask in Hcls.
  set (extra := if 1 <? m then Z.to_nat m else 0%nat).
  assert (HR : Permutation R (ta :: tb :: tl :: repeat tb extra ++ repeat tl extra)).
  { unfold R. rewrite (perm_filter rec _ _ (shuffle_perm g inflated)).
    apply inflate_inv in Hinf. subst inflated.
    assert (Ra : rec ta = true) by (unfold rec; rewrite La; apply negb_true_iff; lia).
    assert (Rb : rec tb = true) by (unfold rec; rewrite Lb; apply negb_true_iff; lia).
    assert (Rl : rec tl = true) by (unfold rec; rewrite Ll; apply negb_true_iff; lia).
    assert (Ru : rec tu = false) by (unfold rec; now rewrite Lu).
    assert (Ea : extras m ta = []) by reflexivity.
    assert (Eb : extras m tb = repeat tb (Z.to_nat m)) by reflexivity.
    assert (El : extras m tl = repeat tl (Z.to_nat m)) by reflexivity.
    assert (Eu : filter rec (extras m tu) = []).
    { unfold extras. destruct (rare_record tu); [|reflexivity].
      now rewrite filter_repeat, Ru. }
    change data with [ta; tb; tl; tu]. rewrite filter_app. cbn [filter].
    rewrite Ra, Rb, Rl, Ru.
    unfold extra. destruct (1 <? m).
    - cbn [flat_map]. rewrite Ea, Eb, El, app_nil_r. cbn [app].
      rewrite !filter_app, Eu, app_nil_r, !filter_repeat, Rb, Rl. reflexivity.
    - cbn. reflexivity. }
  assert (Pa : p ta = false) by (unfold p; rewrite La, Z.eqb_refl; reflexivity).
  assert (Pb : p tb = true) by (unfold p; rewrite Lb; apply negb_true_iff; lia).
  assert (Pl : p tl = true) by (unfold p; rewrite Ll; apply negb_true_iff; lia).
  assert (Hkeep : Permutation (filter p R) (tb :: tl :: repeat tb extra ++ repeat tl extra)).
  { rewrite (perm_filter p _ _ HR). cbn [filter]. rewrite Pa, Pb, Pl.
    now rewrite filter_app, !filter_repeat, Pb, Pl. }
  assert (Hdrop : filter (fun d => negb (p d)) R = [ta]).
  { apply Permutation_length_1_inv. symmetry.
    rewrite (perm_filter (fun d => negb (p d)) _ _ HR). cbn [filter].
    rewrite Pa, Pb, Pl. cbn [negb].
    now rewrite filter_app, !filter_repeat, Pb, Pl. }
  rewrite (count_false_filter p), Hdrop in Hcls. cbn [length] in Hcls.
  pose proof (rand_length g 1) as Hlen.
  destruct (rand g 1) as [|u0 [|u1 us]]; try discriminate. cbn [hd map] in *.
  rewrite Hcls.
  rewrite (perm_partition p (select _ R)).
  rewrite fill_false_keeps, fill_false_draws, Hdrop, map_app.
  rewrite Hkeep. cbn [select map].
  rewrite Permutation_app_comm. apply Permutation_app.
  - destruct (exceeds_0_7 u0); cbn [select map]; rewrite ?La; reflexivity.
  - rewrite Lb, Ll, map_app, !map_repeat, Lb, Ll.
    unfold copies, extra. destruct (1 <? m); cbn [repeat app].
    + constructor. apply Permutation_middle.
    + reflexivity.
Qed.

(** C5, as the code has it.  With the configured multiplier, the four
    transitions yield 31 labels of brake, 31 of left+brake, and one of
    accelerate when the draw exceeds 0.7: 62 or 63 samples, each
    labelled with the index of its pattern, and none for the
    unrecognised transition. *)
Theorem four_transitions (g : rng State) (s0 s1 s2 s3 : State)
  (u : vec3) (ia ib il : Z) :
  NoDup available_actions ->
  index available_actions accelerate = Ok ia ->
  index available_actions brake = Ok ib ->
  index available_actions left_brake = Ok il ->
  ~ In u available_actions ->
  let tr := fun (s : State) (a : vec3) => [Img s; Act a; Obj 0; Obj 0; Obj 0] in
  let data := [tr s0 accelerate; tr s1 brake; tr s2 left_brake; tr s3 u] in
  exists states act_classes,
    read_data available_actions (file_pickle data) g = Ok (states, act_classes) /\
    length (rows states) = length act_classes /\
    Permutation act_classes
      ((if exceeds_0_7 (hd 0 (rand g 1)) then [ia] else [])
       ++ repeat ib 31 ++ repeat il 31) /\
    (length act_classes = 62%nat \/ length act_classes = 63%nat).
Proof.
  intros Hnd Hia Hib Hil Hu tr data.
  destruct (transitions_under_multiplier MULTIPLY_RARE_EVENTS g s0 s1 s2 s3 u ia ib il
              Hnd Hia Hib Hil Hu) as (states & act_classes & Hret & Hlen & Hperm).
  exists states, act_classes. split; [exact Hret|]. split; [exact Hlen|].
  change (if 1 <? MULTIPLY_RARE_EVENTS then S (Z.to_nat MULTIPLY_RARE_EVENTS) else 1%nat)
    with 31%nat in Hperm.
  split; [exact Hperm|].
  apply Permutation_length in Hperm. rewrite Hperm.
  rewrite !length_app, !repeat_length.
  destruct (exceeds_0_7 (hd 0 (rand g 1))); cbn; auto.
Qed.

End FourTransitions.

(** * The properties at work on concrete data *)

(** Three transitions, the generator that keeps everything: two
    samples come back, labelled 5 (accelerate) and 1 (left). *)
Lemma label_pattern_is_action_witness :
  read_data Sample.actions_table (file_pickle Sample.three) Sample.rng_high
  = Ok ({| rows := [Img 0%nat; Img 1%nat]; ndim4 := true |}, [5; 1]) /\
  exists data kept,
    file_pickle Sample.three = file_pickle data /\
    incl kept data /\
    [Img 0%nat; Img 1%nat] = column 0 kept /\
    [5; 1] = map (label_of Sample.actions_table) kept /\
    Forall (fun d =>
              exists v, action_of d = Some v /\
                        0 <= label_of Sample.actions_table d /\
                        nth_error Sample.actions_table
                                  (Z.to_nat (label_of Sample.actions_table d)) = Some v)
           kept.
Proof.
  split; [vm_compute; reflexivity|].
  apply (label_pattern_is_action Sample.frame Sample.actions_table
           (file_pickle Sample.three) Sample.rng_high
           {| rows := [Img 0%nat; Img 1%nat]; ndim4 := true |} [5; 1]).
  vm_compute; reflexivity.
Defined.

(** The same three transitions under the generator that drops every
    accelerate sample: one sample comes back, labelled 1. *)
Lemma retained_labels_valid_witness :
  read_data Sample.actions_table (file_pickle Sample.three) Sample.rng_low
  = Ok ({| rows := [Img 1%nat]; ndim4 := true |}, [1]) /\
  length [@Img Sample.frame 1%nat] = length [1] /\
  Forall (fun c => 0 <= c < Z.of_nat (length Sample.actions_table) /\ c <> -1) [1].
Proof.
  split; [vm_compute; reflexivity|].
  pose proof (retained_labels_valid Sample.frame Sample.actions_table
                (file_pickle Sample.three) Sample.rng_low
                {| rows := [Img 1%nat]; ndim4 := true |} [1]) as H.
  destruct H as (H1 & H2 & _); [vm_compute; reflexivity|].
  split; [exact H1 | exact H2].
Defined.

(** The inflation of the four transitions of [Sample.four]. *)
Lemma inflation_copies_witness :
  Forall (fun d : record Sample.frame => (2 <= length d)%nat) Sample.four /\
  exists inflated,
    inflate MULTIPLY_RARE_EVENTS Sample.four = Ok inflated /\
    forall d,
      count_occ (record_eq_dec Sample.frame Nat.eq_dec) inflated d
      = if rare_record d
        then (Z.to_nat (1 + MULTIPLY_RARE_EVENTS)
              * count_occ (record_eq_dec Sample.frame Nat.eq_dec) Sample.four d)%nat
        else count_occ (record_eq_dec Sample.frame Nat.eq_dec) Sample.four d.
Proof.
  assert (H : Forall (fun d : record Sample.frame => (2 <= length d)%nat) Sample.four)
    by (repeat constructor; simpl; lia).
  split; [exact H|].
  apply (inflation_copies Sample.frame Nat.eq_dec Sample.four H).
Defined.

(** The same four transitions with a multiplier of 1. *)
Lemma inflation_skipped_witness :
  1 <= 1 /\
  exists inflated,
    inflate 1 Sample.four = Ok inflated /\
    inflated = Sample.four /\
    forall d,
      count_occ (record_eq_dec Sample.frame Nat.eq_dec) inflated d
      = count_occ (record_eq_dec Sample.frame Nat.eq_dec) Sample.four d.
Proof.
  split; [lia|].
  apply (inflation_skipped Sample.frame Nat.eq_dec 1 Sample.four). lia.
Defined.

(** Three samples labelled 5, 6, 5 and draws of 0: both accelerate
    samples go, the brake sample stays. *)
Lemma accelerate_downsampling_witness :
  length (rows Sample.states3) = length [5; 6; 5] /\
  index Sample.actions_table accelerate = Ok 5 /\
  exists states' act_classes',
    drop_accelerations Sample.actions_table Sample.rng_low Sample.states3 [5; 6; 5]
    = Ok (states', act_classes') /\
    let before := samples Sample.states3 [5; 6; 5] in
    let after := samples states' act_classes' in
    let draws := rand Sample.rng_low (length (filter (has_class 5) before)) in
    filter (has_class 5) after
    = select (map exceeds_0_7 draws) (filter (has_class 5) before) /\
    filter (fun s => negb (has_class 5 s)) after
    = filter (fun s => negb (has_class 5 s)) before /\
    (forall u, exceeds_0_7 u = true <-> 7 * 2 ^ 53 < 10 * u) /\
    (forall u, exceeds_0_7 u = false <-> u < TH + 1) /\
    Z.abs (10 * (TH + 1) - 7 * 2 ^ 53) < 10.
Proof.
  split; [reflexivity|]. split; [reflexivity|].
  apply (accelerate_downsampling Sample.frame Sample.actions_table Sample.rng_low
           Sample.states3 [5; 6; 5] 5); reflexivity.
Defined.

(** Two samples come back from the three transitions: one goes to the
    training set, [int(2 * 0.85) = 1], and one to the validation set. *)
Lemma split_train_validation_witness :
  Sample.create_on (file_pickle Sample.three) Sample.initial_world
  = ({| trace := [ev_read_data]; reads := 1; model_file := None; writes := [] |},
     Ok ([(Img 0%nat, 5)], [(Img 1%nat, 1)])) /\
  exists x y xs train_set test_set,
    read_data Sample.actions_table (file_pickle Sample.three) Sample.rng_high
    = Ok (x, y) /\
    moveaxis_3_1 Sample.frame (fun s => s) x = Ok xs /\
    Ok train_set = Ok [(@Img Sample.frame 0%nat, 5)] /\
    Ok test_set = Ok [(@Img Sample.frame 1%nat, 1)] /\
    let all := combine xs y in
    let n := length all in
    train_set = firstn (split_index n) all /\
    test_set = skipn (length train_set) all /\
    train_set ++ test_set = all /\
    (length train_set + length test_set = n)%nat /\
    (Z.of_nat n < 2 ^ 48 ->
     Z.of_nat (split_index n) = 85 * Z.of_nat n / 100 /\
     Z.of_nat (length train_set) = 85 * Z.of_nat n / 100).
Proof.
  assert (H : Sample.create_on (file_pickle Sample.three) Sample.initial_world
              = ({| trace := [ev_read_data]; reads := 1; model_file := None; writes := [] |},
                 Ok ([(Img 0%nat, 5)], [(Img 1%nat, 1)])))
    by (vm_compute; reflexivity).
  split; [exact H|].
  apply (split_train_validation Sample.frame Sample.actions_table (fun s => s)
           nat (dataset Sample.frame) (fun ds _ _ _ => Ok ds)
           (file_pickle Sample.three) (fun _ => Sample.rng_high)
           Sample.initial_world _ _ _ H).
Defined.

(** The four transitions of [Sample.four] with the table of seven
    patterns. *)
Lemma four_transitions_witness :
  NoDup Sample.actions_table /\
  index Sample.actions_table accelerate = Ok 5 /\
  index Sample.actions_table brake = Ok 6 /\
  index Sample.actions_table left_brake = Ok 2 /\
  ~ In (1, 1, 0) Sample.actions_table /\
  exists states act_classes,
    read_data Sample.actions_table (file_pickle Sample.four) Sample.rng_low
    = Ok (states, act_classes) /\
    length (rows states) = length act_classes /\
    Permutation act_classes
      ((if exceeds_0_7 (hd 0 (rand Sample.rng_low 1)) then [5] else [])
       ++ repeat 6 31 ++ repeat 2 31) /\
    (length act_classes = 62%nat \/ length act_classes = 63%nat).
Proof.
  assert (Hnd : NoDup Sample.actions_table).
  { unfold Sample.actions_table.
    repeat (constructor; [simpl; intuition discriminate|]). constructor. }
  assert (Hu : ~ In (1, 1, 0) Sample.actions_table)
    by (simpl; intuition discriminate).
  split; [exact Hnd|]. split; [reflexivity|]. split; [reflexivity|].
  split; [reflexivity|]. split; [exact Hu|].
  apply (four_transitions Sample.frame Sample.actions_table Sample.rng_low
           0%nat 1%nat 2%nat 3%nat (1, 1, 0) 5 6 2 Hnd eq_refl eq_refl eq_refl Hu).
Defined.

(** C5, as stated, at the four transitions of [Sample.four]: the call
    returns 63 samples, not 3. *)
Lemma three_samples_refuted :
  (exists states act_classes,
      read_data Sample.actions_table (file_pickle Sample.four) Sample.rng_high
      = Ok (states, act_classes) /\
      length act_classes = 63%nat) /\
  ~ (exists states act_classes,
        read_data Sample.actions_table (file_pickle Sample.four) Sample.rng_high
        = Ok (states, act_classes) /\
        length act_classes = 3%nat).
Proof.
  assert (H : exists res,
             read_data Sample.actions_table (file_pickle Sample.four) Sample.rng_high
             = Ok res /\ length (snd res) = 63%nat).
  { destruct (read_data Sample.actions_table (file_pickle Sample.four) Sample.rng_high)
      as [res|e] eqn:E; vm_compute in E; [|discriminate].
    exists res. split; [reflexivity|]. injection E as <-. reflexivity. }
  destruct H as ([states act_classes] & H & Hlen). split.
  - exists states, act_classes. auto.
  - intros (states' & act_classes' & H' & Hlen'). rewrite H in H'.
    injection H' as <- <-. cbn [snd] in Hlen. congruence.
Qed.


(** A whole run on the four transitions: two calls of [read_data]. *)
Lemma read_data_entered_twice_witness :
  snd (Sample.run_on (file_pickle Sample.four) Sample.initial_world) = Ok tt /\
  reads (fst (Sample.run_on (file_pickle Sample.four) Sample.initial_world)) = 2%nat /\
  count_reads (trace (fst (Sample.run_on (file_pickle Sample.four) Sample.initial_world)))
  = 2%nat.
Proof.
  assert (Hok : snd (Sample.run_on (file_pickle Sample.four) Sample.initial_world)
                = Ok tt) by (vm_compute; reflexivity).
  split; [exact Hok|].
  destruct (read_data_entered_twice Sample.frame Sample.actions_table (fun s => s)
              nat nat (dataset Sample.frame) (fun m => m) Sample.summary
              (fun ds _ _ _ => Ok ds) Sample.train_epoch Sample.test
              (file_pickle Sample.four) (fun _ => Sample.rng_high) 0%nat
              Sample.initial_world Hok)
    as (Hreads & new & Ht & _ & Hcount).
  split; [exact Hreads|].
  rewrite Ht. exact Hcount.
Defined.


(** * Further properties *)

(** ** The outcome of the preparer *)

Section OutcomeFacts.

Variable State : Type.
Variable available_actions : list vec3.

Local Abbreviation label := (label_of available_actions).
Local Abbreviation recognised := (fun d : record State => negb (label d =? -1)).

(** [zip_width] only depends on which tuples the list holds. *)
Lemma zip_width_ext (l l' : list (record State)) :
  (forall d, In d l <-> In d l') -> zip_width l = zip_width l'.
Proof.
  intros H.
  destruct l as [|d0 l0] eqn:El.
  - destruct l' as [|d1 l1]; [reflexivity|].
    exfalso. apply (proj2 (H d1)). now left.
  - rewrite <- El in *.
    assert (Hne : l <> []) by (rewrite El; discriminate).
    assert (Hne' : l' <> []).
    { intros ->. apply (proj1 (H d0)). rewrite El. now left. }
    destruct (zip_width_attained State l Hne) as (d & Hd & E).
    destruct (zip_width_attained State l' Hne') as (d' & Hd' & E').
    apply Nat.le_antisymm.
    + rewrite E'. apply zip_width_le. now apply H.
    + rewrite E. apply zip_width_le. now apply H.
Qed.

Lemma shuffled_In (m : Z) (g : rng State) (data inflated : list (record State))
  (d : record State) :
  inflate m data = Ok inflated -> (In d (shuffle g inflated) <-> In d data).
Proof.
  intros Hinf. rewrite <- (inflate_In State m data inflated d Hinf). split.
  - apply Permutation_in, shuffle_perm.
  - apply Permutation_in, Permutation_sym, shuffle_perm.
Qed.

Lemma inflate_returns (m : Z) (data : list (record State)) :
  Forall (fun d => (2 <= length d)%nat) data ->
  exists inflated, inflate m data = Ok inflated.
Proof.
  intros H. unfold inflate. destruct (1 <? m); [|eauto].
  eexists. now apply inflate_loop_Ok.
Qed.

Lemma width_5_long (data : list (record State)) :
  zip_width data = 5%nat -> Forall (fun d => (2 <= length d)%nat) data.
Proof.
  intros H. apply Forall_forall. intros d Hd.
  pose proof (zip_width_le State data d Hd). lia.
Qed.

(** On a recording of width five whose second components are action
    vectors, the call gets as far as the down-sampling step, with the
    states and the labels of the recognised tuples. *)
Lemma read_data_with_reaches (m : Z) (data : list (record State)) (g : rng State) :
  zip_width data = 5%nat ->
  Forall (fun d => exists v, action_of d = Some v) data ->
  exists inflated,
    inflate m data = Ok inflated /\
    read_data_with available_actions m (file_pickle data) g
    = drop_accelerations available_actions g
        (select_rows (map recognised (shuffle g inflated))
                     (np_array (column 0 (shuffle g inflated))))
        (map label (filter recognised (shuffle g inflated))).
Proof.
  intros Hw Hact.
  destruct (inflate_returns m data (width_5_long data Hw)) as (inflated & Hinf).
  exists inflated. split; [exact Hinf|].
  unfold read_data_with. cbn [load bind]. rewrite Hinf. cbn [bind].
  set (sh := shuffle g inflated).
  assert (Hsh : forall d, In d sh <-> In d data) by (intros d; now apply (shuffled_In m)).
  unfold unzip5. rewrite (zip_width_ext sh data Hsh), Hw. cbn [Nat.eqb bind].
  destruct (column_actions State sh) as (vs & Hcol).
  { apply Forall_forall. intros d Hd. apply Hsh in Hd.
    now apply (proj1 (Forall_forall _ _) Hact). }
  rewrite Hcol, derive_classes_Act. cbn [bind].
  rewrite (labels_of_column State available_actions sh vs Hcol).
  assert (E1 : not_equal (map label sh) (-1) = map recognised sh).
  { unfold not_equal. now rewrite map_map. }
  rewrite E1, select_map, select_filter. reflexivity.
Qed.

Lemma index_from_not_In (v : vec3) (l : list vec3) (i : Z) :
  ~ In v l -> index_from v l i = Raise ValueError.
Proof.
  revert i; induction l as [|a l IH]; intros i Hn; cbn; [reflexivity|].
  destruct (vec3_eqb a v) eqn:E.
  - apply vec3_eqb_eq in E. exfalso. apply Hn. now left.
  - apply IH. intros H. apply Hn. now right.
Qed.

(** X2.  On a recording that is otherwise in order, an enumeration
    without the accelerate pattern makes the call raise [ValueError]
    (from [available_actions.index], line 58), whether or not any
    tuple is an accelerate action. *)
Theorem no_accelerate_pattern (data : list (record State)) (g : rng State) :
  zip_width data = 5%nat ->
  Forall (fun d => exists v, action_of d = Some v) data ->
  ~ In accelerate available_actions ->
  read_data available_actions (file_pickle data) g = Raise ValueError.
Proof.
  intros Hw Hact Hacc.
  destruct (read_data_with_reaches MULTIPLY_RARE_EVENTS data g Hw Hact)
    as (inflated & _ & E).
  unfold read_data. rewrite E. unfold drop_accelerations, index.
  now rewrite (index_from_not_In accelerate available_actions 0 Hacc).
Qed.

Lemma inflate_loop_short (m : Z) (ds acc : list (record State)) :
  Exists (fun d => (length d < 2)%nat) ds ->
  inflate_loop m ds acc = Raise IndexError.
Proof.
  intros H. revert acc. induction ds as [|d ds IH]; intros acc.
  - inversion H.
  - cbn [inflate_loop].
    destruct (Nat.lt_ge_cases (length d) 2) as [Hd|Hd].
    + unfold inflate_one, getitem.
      destruct d as [|f0 [|f1 d']]; cbn in Hd; try lia; reflexivity.
    + rewrite (inflate_one_Ok State m d acc Hd). cbn [bind]. apply IH.
      inversion H as [? ? H0|? ? H0]; subst; [lia | exact H0].
Qed.

(** X3.  A tuple with fewer than two components makes the call raise
    [IndexError]: the inflation loop reads [d[1]] of every tuple
    before anything else looks at the list. *)
Theorem short_tuple_index_error (data : list (record State)) (g : rng State) :
  Exists (fun d => (length d < 2)%nat) data ->
  read_data available_actions (file_pickle data) g = Raise IndexError.
Proof.
  intros H. unfold read_data, read_data_with. cbn [load bind].
  unfold inflate. change (1 <? MULTIPLY_RARE_EVENTS) with true. cbn iota.
  now rewrite inflate_loop_short.
Qed.

(** X4.  When every tuple has a second component but the shortest
    tuple has not exactly five components (the empty recording, whose
    width is 0, included), the call raises [ValueError], from the
    unpacking of line 45. *)
Theorem wrong_width_value_error (data : list (record State)) (g : rng State) :
  Forall (fun d => (2 <= length d)%nat) data ->
  zip_width data <> 5%nat ->
  read_data available_actions (file_pickle data) g = Raise ValueError.
Proof.
  intros Hlong Hw.
  destruct (inflate_returns MULTIPLY_RARE_EVENTS data Hlong) as (inflated & Hinf).
  unfold read_data, read_data_with. cbn [load bind]. rewrite Hinf. cbn [bind].
  unfold unzip5.
  rewrite (zip_width_ext (shuffle g inflated) data)
    by (intros d; now apply (shuffled_In MULTIPLY_RARE_EVENTS)).
  apply Nat.eqb_neq in Hw. now rewrite Hw.
Qed.

End OutcomeFacts.

(** ** The class histogram *)

Section CountLists.

Context {A : Type}.

Lemma class_count_map (f : A -> Z) (l : list A) (c : Z) :
  class_count (map f l) c = length (filter (fun x => f x =? c) l).
Proof.
  unfold class_count. induction l as [|x l IH]; cbn; [reflexivity|].
  destruct (f x =? c); cbn; now rewrite IH.
Qed.

Lemma filter_implies (p q : A -> bool) (l : list A) :
  (forall x, p x = true -> q x = true) -> filter p (filter q l) = filter p l.
Proof.
  intros H. induction l as [|x l IH]; cbn; [reflexivity|].
  destruct (q x) eqn:Eq; cbn.
  - now rewrite IH.
  - destruct (p x) eqn:Ep; [|exact IH].
    apply H in Ep. congruence.
Qed.

Lemma select_length_true (vals : list bool) (xs : list A) :
  length vals = length xs ->
  length (select vals xs) = length (filter (fun b => b) vals).
Proof.
  revert xs; induction vals as [|b vals IH]; intros [|x xs]; cbn;
    try reflexivity; try discriminate.
  intros [= H]. destruct b; cbn; now rewrite IH.
Qed.

Lemma filter_id_map (f : A -> bool) (l : list A) :
  filter (fun b => b) (map f l) = map f (filter f l).
Proof.
  induction l as [|x l IH]; cbn; [reflexivity|].
  destruct (f x) eqn:E; cbn; now rewrite ?E, IH.
Qed.

Lemma fill_false_all_true (p : A -> bool) (xs : list A) (vals : list bool) :
  (forall x, In x xs -> p x = true) ->
  select (fill_false (map p xs) vals) xs = xs.
Proof.
  induction xs as [|x xs IH]; intros H; cbn; [reflexivity|].
  rewrite (H x) by now left. cbn. f_equal. apply IH. intros y Hy. apply H. now right.
Qed.

Lemma filter_none (p : A -> bool) (l : list A) :
  (forall x, In x l -> p x = false) -> filter p l = [].
Proof.
  induction l as [|x l IH]; intros H; cbn; [reflexivity|].
  rewrite (H x) by now left. apply IH. intros y Hy. apply H. now right.
Qed.

Lemma list_sum_pointwise (f h : A -> nat) (l : list A) :
  list_sum (map (fun x => (f x + h x)%nat) l)
  = (list_sum (map f l) + list_sum (map h l))%nat.
Proof.
  unfold list_sum. induction l as [|x l IH]; cbn; [reflexivity|]. rewrite IH. lia.
Qed.

End CountLists.

(** Over the indexes below [n], exactly one equals a label in range. *)
Lemma indicator_sum (c : Z) (n : nat) :
  list_sum (map (fun i => if c =? Z.of_nat i then 1%nat else 0%nat) (seq 0 n))
  = if (0 <=? c) && (c <? Z.of_nat n) then 1%nat else 0%nat.
Proof.
  induction n as [|n IH].
  - cbn [seq map list_sum fold_right].
    destruct (Z.leb_spec 0 c), (Z.ltb_spec c (Z.of_nat 0)); cbn; try reflexivity; lia.
  - rewrite seq_S, map_app, list_sum_app, IH. cbn [map list_sum fold_right Nat.add].
    destruct (Z.leb_spec 0 c), (Z.ltb_spec c (Z.of_nat n)),
      (Z.eqb_spec c (Z.of_nat n)), (Z.ltb_spec c (Z.of_nat (S n)));
      cbn; try reflexivity; lia.
Qed.

Lemma class_counts_sum (n : nat) (cs : list Z) :
  Forall (fun c => 0 <= c < Z.of_nat n) cs ->
  list_sum (map (fun i => class_count cs (Z.of_nat i)) (seq 0 n)) = length cs.
Proof.
  induction 1 as [|c cs Hc _ IH].
  - unfold class_count. cbn. induction (seq 0 n); cbn; auto.
  - cbn [length]. rewrite <- IH.
    rewrite <- (map_ext (fun i => ((if (c =? Z.of_nat i)%Z then 1 else 0)
                                   + class_count cs (Z.of_nat i))%nat)).
    + rewrite list_sum_pointwise, indicator_sum.
      destruct (Z.leb_spec 0 c), (Z.ltb_spec c (Z.of_nat n)); cbn; lia.
    + intros i. unfold class_count. cbn [filter].
      destruct (c =? Z.of_nat i); reflexivity.
Qed.

Section CountFacts.

Variable State : Type.
Variable available_actions : list vec3.

Local Abbreviation label := (label_of available_actions).
Local Abbreviation recognised := (fun d : record State => negb (label d =? -1)).

(** The inflation adds [copies m] tuples for each rare tuple. *)
Lemma inflate_count (q : record State -> bool) (m : Z)
  (data inflated : list (record State)) :
  inflate m data = Ok inflated ->
  length (filter q inflated)
  = (length (filter q data)
     + copies m * length (filter (fun d => q d && rare_record d) data))%nat.
Proof.
  intros H. apply inflate_inv in H. subst inflated.
  rewrite filter_app, length_app. f_equal. unfold copies.
  destruct (1 <? m); [|reflexivity].
  induction data as [|d data IH]; cbn [flat_map filter length]; [lia|].
  rewrite filter_app, length_app, IH. unfold extras at 1.
  destruct (rare_record d); cbn [filter].
  - rewrite filter_repeat. destruct (q d); cbn [andb length]; rewrite ?repeat_length; lia.
  - rewrite andb_false_r. cbn. lia.
Qed.

(** A tuple labelled with the index [index] finds for the accelerate
    pattern is an accelerate action; it is not rare. *)
Lemma accel_label_not_rare (accel : Z) (d : record State) :
  index available_actions accelerate = Ok accel ->
  label d = accel -> action_of d = Some accelerate.
Proof.
  intros Hidx Hl. apply index_from_inv in Hidx as (Hr & Hnth & _).
  rewrite Z.sub_0_r in Hnth.
  destruct (label_of_cases State available_actions d) as (v & Hv & _ & Hn & _).
  { rewrite Hl. lia. }
  rewrite Hl in Hn. congruence.
Qed.

(** What a returning call leaves of each class, for any multiplier. *)
Lemma class_counts_with (m : Z) (data : list (record State)) (g : rng State)
  (states : ndarray State) (act_classes : list Z) (accel : Z) :
  read_data_with available_actions m (file_pickle data) g = Ok (states, act_classes) ->
  index available_actions accelerate = Ok accel ->
  (forall c, c <> accel -> c <> -1 ->
     class_count act_classes c
     = (occurrences available_actions c data
        + copies m * rare_occurrences available_actions c data)%nat) /\
  class_count act_classes accel
  = length (filter exceeds_0_7 (rand g (occurrences available_actions accel data))).
Proof.
  intros H Hidx.
  apply read_data_with_inv in H
    as (data' & inflated & accel' & Hf & Hinf & _ & Hacc & _ & _ & Hcls).
  injection Hf as <-. rewrite Hidx in Hacc. injection Hacc as <-.
  cbn zeta in Hcls.
  set (R := filter recognised (shuffle g inflated)) in *.
  set (p := fun d : record State => negb (label d =? accel)).
  assert (Hmask : not_equal (map label R) accel = map p R).
  { unfold not_equal. now rewrite map_map. }
  rewrite Hmask, (count_false_filter p) in Hcls.
  assert (Haccel0 : 0 <= accel) by (apply index_from_inv in Hidx; lia).
  (* the tuples of class [c] among the recognised ones *)
  assert (HR : forall c, c <> -1 ->
             length (filter (fun d => label d =? c) R)
             = (occurrences available_actions c data
                + copies m * rare_occurrences available_actions c data)%nat).
  { intros c Hc. unfold R. rewrite filter_implies.
    - rewrite (Permutation_length
                 (perm_filter (fun d => label d =? c) _ _ (shuffle_perm g inflated))).
      now rewrite (inflate_count _ m data inflated Hinf).
    - intros d Hd. apply Z.eqb_eq in Hd. apply negb_true_iff, Z.eqb_neq. lia. }
  split.
  - intros c Hca Hc. rewrite Hcls, class_count_map.
    rewrite <- (filter_implies (fun d => label d =? c) p).
    + rewrite fill_false_keeps, filter_implies; [now apply HR|].
      intros d Hd. apply Z.eqb_eq in Hd. apply negb_true_iff, Z.eqb_neq. lia.
    + intros d Hd. apply Z.eqb_eq in Hd. apply negb_true_iff, Z.eqb_neq. lia.
  - rewrite Hcls, class_count_map.
    assert (Hn : forall l : list (record State),
               filter (fun d => label d =? accel) l = filter (fun d => negb (p d)) l).
    { intros l. apply filter_ext. intros d. unfold p. now rewrite negb_involutive. }
    rewrite Hn, fill_false_draws, <- !Hn.
    assert (Hk : length (filter (fun d => label d =? accel) R)
                 = occurrences available_actions accel data).
    { rewrite HR by lia.
      assert (E : rare_occurrences available_actions accel data = 0%nat).
      { unfold rare_occurrences. rewrite filter_none; [reflexivity|].
        intros d _. destruct (label d =? accel) eqn:El; [|reflexivity].
        apply Z.eqb_eq, (accel_label_not_rare accel d Hidx) in El.
        unfold rare_record. now rewrite El. }
      lia. }
    rewrite Hk, select_length_true.
    + now rewrite filter_id_map, length_map.
    + now rewrite length_map, rand_length.
Qed.

(** The labels a call returns are indexes of the enumeration. *)
Lemma returned_labels_in_range (m : Z) (f : data_file State) (g : rng State)
  (states : ndarray State) (act_classes : list Z) :
  read_data_with available_actions m f g = Ok (states, act_classes) ->
  Forall (fun c => 0 <= c < Z.of_nat (length available_actions)) act_classes.
Proof.
  intros H. apply read_data_with_inv in H
    as (data & inflated & accel & _ & Hinf & _ & _ & _ & _ & Hcls).
  cbn zeta in Hcls. rewrite Hcls. apply Forall_map, Forall_forall. intros d Hd.
  apply (kept_recognised State available_actions m g data inflated _ d Hinf) in Hd
    as [_ Hd].
  destruct (label_of_cases State available_actions d Hd) as (v & _ & Hr & _).
  exact Hr.
Qed.

(** X5.  The number of samples [read_data] returns of a class other
    than the one [index] finds for accelerate is fixed by the
    recording, whatever the shuffle and the draws: one per tuple of
    that class, and [MULTIPLY_RARE_EVENTS] more per tuple of that
    class with a rare action. *)
Theorem class_counts_fixed (data : list (record State)) (g : rng State)
  (states : ndarray State) (act_classes : list Z) (accel c : Z) :
  read_data available_actions (file_pickle data) g = Ok (states, act_classes) ->
  index available_actions accelerate = Ok accel ->
  c <> accel -> c <> -1 ->
  class_count act_classes c
  = (occurrences available_actions c data
     + 30 * rare_occurrences available_actions c data)%nat.
Proof.
  intros H Hidx Hca Hc.
  destruct (class_counts_with MULTIPLY_RARE_EVENTS data g states act_classes accel
              H Hidx) as [Hother _].
  exact (Hother c Hca Hc).
Qed.

(** X6.  Of the class [index] finds for accelerate, [read_data]
    returns as many samples as there are draws above 0.7 among
    [np.random.rand(k)], [k] being the number of tuples of that class
    in the recording (none of them is inflated): at most [k], and
    none when the recording has none. *)
Theorem accelerate_count (data : list (record State)) (g : rng State)
  (states : ndarray State) (act_classes : list Z) (accel : Z) :
  read_data available_actions (file_pickle data) g = Ok (states, act_classes) ->
  index available_actions accelerate = Ok accel ->
  let k := occurrences available_actions accel data in
  class_count act_classes accel = length (filter exceeds_0_7 (rand g k)) /\
  (class_count act_classes accel <= k)%nat.
Proof.
  intros H Hidx k.
  destruct (class_counts_with MULTIPLY_RARE_EVENTS data g states act_classes accel
              H Hidx) as [_ Hacc].
  fold k in Hacc. split; [exact Hacc|].
  rewrite Hacc. rewrite <- (rand_length g k) at 2. apply filter_length_le.
Qed.

(** X7.  The per-class numbers [read_data] prints, one for each index
    of the enumeration, add up to the total it prints after them. *)
Theorem printed_counts_total (f : data_file State) (g : rng State)
  (states : ndarray State) (act_classes : list Z) :
  read_data available_actions f g = Ok (states, act_classes) ->
  list_sum (printed_counts available_actions act_classes)
  = printed_total act_classes.
Proof.
  intros H. unfold printed_counts, printed_total.
  apply class_counts_sum.
  exact (returned_labels_in_range MULTIPLY_RARE_EVENTS f g states act_classes H).
Qed.

(** X8.  When the accelerate pattern comes more than once in the
    enumeration, the down-sampling drops nothing: the labelling loop
    leaves the index of the last occurrence, [index] returns the
    first, so no sample has the class that is down-sampled, and every
    class other than the sentinel keeps all its tuples. *)
Theorem repeated_accelerate_keeps_all (data : list (record State)) (g : rng State)
  (states : ndarray State) (act_classes : list Z) (accel : Z) (j : nat) :
  read_data available_actions (file_pickle data) g = Ok (states, act_classes) ->
  index available_actions accelerate = Ok accel ->
  (Z.to_nat accel < j)%nat ->
  nth_error available_actions j = Some accelerate ->
  forall c, c <> -1 ->
    class_count act_classes c
    = (occurrences available_actions c data
       + 30 * rare_occurrences available_actions c data)%nat.
Proof.
  intros H Hidx Hj Hnth c Hc.
  destruct (class_counts_with MULTIPLY_RARE_EVENTS data g states act_classes accel
              H Hidx) as [Hother Hacc].
  destruct (Z.eq_dec c accel) as [->|Hca]; [|exact (Hother c Hca Hc)].
  assert (Hnone : forall d : record State, (label d =? accel) = false).
  { intros d. apply Z.eqb_neq. intros Hl.
    pose proof (accel_label_not_rare accel d Hidx Hl) as Hv.
    destruct (label_of_cases State available_actions d) as (v & Hv' & _ & _ & Hlast).
    { congruence. }
    rewrite Hl in Hlast. apply (Hlast j Hj). congruence. }
  assert (E0 : occurrences available_actions accel data = 0%nat).
  { unfold occurrences. rewrite filter_none; [reflexivity|]. intros d _. apply Hnone. }
  assert (E1 : rare_occurrences available_actions accel data = 0%nat).
  { unfold rare_occurrences. rewrite filter_none; [reflexivity|].
    intros d _. now rewrite Hnone. }
  rewrite Hacc, E0, E1.
  pose proof (rand_length g 0) as Hl. destruct (rand g 0); [reflexivity | discriminate].
Qed.

End CountFacts.

(** ** The sizes of the two datasets *)

Section SplitSizes.

Variable State : Type.
Variable channel_first : State -> State.

(** X9.  Below [2^48] samples, the validation set gets at least 15
    samples in a hundred and less than one sample more than that: it
    is never empty when there is a sample at all, while the training
    set is empty exactly when there is at most one sample. *)
Theorem split_sizes (x : ndarray State) (y : list Z)
  (train_set test_set : dataset State) :
  length (rows x) = length y ->
  Z.of_nat (length y) < 2 ^ 48 ->
  split_datasets State channel_first (x, y) = Ok (train_set, test_set) ->
  let n := Z.of_nat (length y) in
  let n_train := Z.of_nat (length train_set) in
  let n_test := Z.of_nat (length test_set) in
  n_train + n_test = n /\
  15 * n <= 100 * n_test < 15 * n + 100 /\
  (1 <= n -> 1 <= n_test) /\
  (n_train = 0 <-> n <= 1).
Proof.
  intros Hlen Hb H n n_train n_test.
  destruct (split_datasets_spec State channel_first x y train_set test_set Hlen H)
    as (xs & Hxs & Hspec).
  cbn zeta in Hspec. destruct Hspec as (_ & _ & _ & Hsum & Hfloor).
  pose proof (moveaxis_length State channel_first x xs Hxs) as Hl.
  assert (Hn : length (combine xs y) = length y).
  { rewrite length_combine. lia. }
  rewrite Hn in Hsum, Hfloor. destruct (Hfloor Hb) as [_ Htr].
  fold n in Htr. fold n_train in Htr.
  assert (Hs : n_train + n_test = n) by (unfold n, n_train, n_test; lia).
  assert (0 <= n) by (unfold n; lia).
  pose proof (Z.div_mod (85 * n) 100 ltac:(lia)) as Hdm.
  pose proof (Z.mod_pos_bound (85 * n) 100 ltac:(lia)) as Hmod.
  repeat split; try lia.
Qed.

End SplitSizes.

(** ** The checkpoint *)

Section CheckpointFacts.

Variable State : Type.
Variable available_actions : list vec3.
Variable channel_first : State -> State.
Variable Model : Type.
Variable Weights : Type.
Variable Loader : Type.
Variable state_dict : Model -> Weights.
Variable summary : Model -> result Model.
Variable DataLoader : dataset State -> nat -> bool -> nat -> result Loader.
Variable train_epoch : nat -> Model -> Loader -> result Model.
Variable test : Model -> Loader -> result unit.
Variable input : data_file State.
Variable rngs : nat -> rng State.

Local Abbreviation loop := (epoch_loop state_dict train_epoch test).
Local Abbreviation create :=
  (create_datasets State available_actions channel_first Weights Loader
                   DataLoader input rngs).
Local Abbreviation training :=
  (train State available_actions channel_first Model Weights Loader state_dict
         summary DataLoader train_epoch test input rngs).


End CheckpointFacts.

(** ** The shapes of the network *)

Lemma forward_shape_cons (training : bool) (l : layer) (layers : list layer)
  (s : shape) :
  forward_shape training (l :: layers) s
  = match layer_shape training l s with
    | Some s' => forward_shape training layers s'
    | None => None
    end.
Proof. reflexivity. Qed.

(** One layer of the sequence at a time. *)
Ltac layer_step :=
  rewrite forward_shape_cons;
  cbn [layer_shape one_value_per_channel rev app fold_right];
  rewrite ?Nat.eqb_refl; cbn [andb].

(** The three convolutions take a side of [h] pixels to
    [conv_size (conv_size (conv_size h 8 4) 4 2) 3 1] pixels, provided
    no kernel is larger than what it is applied to; the layers after
    them take [64 * 7 * 7] features; in training mode the
    normalisations want more than one value per feature. *)
Lemma network_shape (training : bool) (available_actions : list vec3)
  (n c h w : nat) :
  forward_shape training (build_network available_actions) [n; c; h; w]
  = let h1 := conv_size h 8 4 in
    let w1 := conv_size w 8 4 in
    let h2 := conv_size h1 4 2 in
    let w2 := conv_size w1 4 2 in
    let h3 := conv_size h2 3 1 in
    let w3 := conv_size w2 3 1 in
    if ((c =? 1) && (8 <=? h) && (8 <=? w)
        && negb (training && (h1 * (w1 * n) =? 1))
        && (4 <=? h1) && (4 <=? w1)
        && negb (training && (h2 * (w2 * n) =? 1))
        && (3 <=? h2) && (3 <=? w2)
        && negb (n =? 0)
        && (64 * (h3 * (w3 * 1)) =? 64 * 7 * 7)
        && negb (training && (n =? 1)))%nat
    then Some [n; length available_actions]
    else None.
Proof.
  cbn zeta. unfold build_network.
  set (F := (64 * 7 * 7)%nat).
  layer_step. change (0 <? 4)%nat with true. rewrite andb_true_r.
  destruct (c =? 1)%nat; [|reflexivity].
  destruct (8 <=? h)%nat; [|reflexivity].
  destruct (8 <=? w)%nat; [|reflexivity].
  cbn [andb]. layer_step.
  destruct (negb (training && (conv_size h 8 4 * (conv_size w 8 4 * n) =? 1)%nat));
    [|reflexivity].
  cbn [andb]. do 2 layer_step.
  layer_step. change (0 <? 2)%nat with true. rewrite andb_true_r.
  destruct (4 <=? conv_size h 8 4)%nat; [|reflexivity].
  destruct (4 <=? conv_size w 8 4)%nat; [|reflexivity].
  cbn [andb]. layer_step.
  destruct (negb (training && (conv_size (conv_size h 8 4) 4 2
                               * (conv_size (conv_size w 8 4) 4 2 * n) =? 1)%nat));
    [|reflexivity].
  cbn [andb]. do 2 layer_step.
  layer_step. change (0 <? 1)%nat with true. rewrite andb_true_r.
  destruct (3 <=? conv_size (conv_size h 8 4) 4 2)%nat; [|reflexivity].
  destruct (3 <=? conv_size (conv_size w 8 4) 4 2)%nat; [|reflexivity].
  cbn [andb]. layer_step.
  layer_step.
  destruct (n =? 0)%nat; [reflexivity|].
  cbn [negb andb]. layer_step.
  destruct (Nat.eqb_spec
              (64 * (conv_size (conv_size (conv_size h 8 4) 4 2) 3 1
                     * (conv_size (conv_size (conv_size w 8 4) 4 2) 3 1 * 1))) F)
    as [->|_]; [|reflexivity].
  rewrite ?Nat.eqb_refl. cbn [andb].
  destruct (negb (training && (n =? 1)%nat)) eqn:En; [|reflexivity].
  do 4 layer_step. rewrite ?En. cbn [andb]. do 2 layer_step. reflexivity.
Qed.

(** X11.  On a batch of [n] square frames the network gives one
    output per pattern of the enumeration when the frames have one
    channel and a side of 84 to 91 pixels and the batch holds at least
    two frames in training mode, at least one in evaluation mode; it
    raises otherwise.  The number of features written into the layers
    after the convolutions, [64 * 7 * 7], is the one the convolutions
    leave of such a frame. *)
Theorem network_square_input (training : bool) (available_actions : list vec3)
  (n c h : nat) :
  forward_shape training (build_network available_actions) [n; c; h; h]
  = if ((c =? 1) && (84 <=? h) && (h <=? 91)
        && (if training then 2 <=? n else 1 <=? n))%nat
    then Some [n; length available_actions]
    else None.
Proof.
  rewrite network_shape. cbn zeta. unfold conv_size.
  rewrite !Nat.div_1_r, Nat.mul_1_r.
  pose proof (Nat.div_mod_eq (h - 8) 4) as Ha.
  pose proof (Nat.mod_upper_bound (h - 8) 4 ltac:(lia)) as Ha'.
  set (a := ((h - 8) / 4)%nat) in *.
  pose proof (Nat.div_mod_eq (a + 1 - 4) 2) as Hb.
  pose proof (Nat.mod_upper_bound (a + 1 - 4) 2 ltac:(lia)) as Hb'.
  set (b := ((a + 1 - 4) / 2)%nat) in *.
  set (h3 := (b + 1 - 3 + 1)%nat).
  assert (Hh3 : h3 = (b + 1 - 3 + 1)%nat) by reflexivity.
  clearbody h3.
  destruct (Nat.eqb_spec c 1); cbn [andb]; [|reflexivity].
  match goal with
  | |- (if ?X then _ else _) = (if ?Y then _ else _) =>
      assert (E : X = Y); [|rewrite E; reflexivity]
  end.
  apply Bool.eq_iff_eq_true.
  destruct training; cbn [andb negb];
    rewrite !andb_true_iff, !negb_true_iff, !Nat.leb_le, !Nat.eqb_eq, !Nat.eqb_neq.
  - split.
    + intros H. repeat match goal with H : _ /\ _ |- _ => destruct H end.
      assert (h3 = 7%nat) by nia. lia.
    + intros ((H1 & H2) & Hn).
      assert (h3 = 7%nat) by lia. subst h3.
      assert (20 <= a + 1)%nat by lia. assert (9 <= b + 1)%nat by lia.
      repeat split; try lia; nia.
  - split.
    + intros H. repeat match goal with H : _ /\ _ |- _ => destruct H end.
      assert (h3 = 7%nat) by nia. lia.
    + intros ((H1 & H2) & Hn).
      assert (h3 = 7%nat) by lia. subst h3.
      repeat split; lia.
Qed.

(** ** The further properties on concrete data *)

(** The three transitions of [Sample.three] with the three rare
    patterns as the enumeration: accelerate is not among them. *)
Lemma no_accelerate_pattern_witness :
  zip_width Sample.three = 5%nat /\
  Forall (fun d => exists v, action_of d = Some v) Sample.three /\
  ~ In accelerate rare_events /\
  read_data rare_events (file_pickle Sample.three) Sample.rng_high = Raise ValueError.
Proof.
  assert (H1 : zip_width Sample.three = 5%nat) by reflexivity.
  assert (H2 : Forall (fun d : record Sample.frame => exists v, action_of d = Some v)
                      Sample.three)
    by (repeat constructor; eexists; reflexivity).
  assert (H3 : ~ In accelerate rare_events).
  { simpl. intros [H|[H|[H|[]]]]; discriminate. }
  split; [exact H1|]. split; [exact H2|]. split; [exact H3|].
  apply (no_accelerate_pattern Sample.frame rare_events Sample.three Sample.rng_high
           H1 H2 H3).
Defined.

(** A recording whose second tuple has a single component. *)
Lemma short_tuple_index_error_witness :
  Exists (fun d : record Sample.frame => (length d < 2)%nat)
         [Sample.transition 0%nat brake; [Img 1%nat]] /\
  read_data Sample.actions_table
            (file_pickle [Sample.transition 0%nat brake; [Img 1%nat]]) Sample.rng_high
  = Raise IndexError.
Proof.
  assert (H : Exists (fun d : record Sample.frame => (length d < 2)%nat)
                     [Sample.transition 0%nat brake; [Img 1%nat]]).
  { apply Exists_cons_tl, Exists_cons_hd. simpl. lia. }
  split; [exact H|].
  apply (short_tuple_index_error Sample.frame Sample.actions_table _ Sample.rng_high H).
Defined.

(** The empty recording. *)
Lemma wrong_width_value_error_witness :
  Forall (fun d : record Sample.frame => (2 <= length d)%nat) [] /\
  zip_width (@nil (record Sample.frame)) <> 5%nat /\
  read_data Sample.actions_table (file_pickle []) Sample.rng_high = Raise ValueError.
Proof.
  assert (H1 : Forall (fun d : record Sample.frame => (2 <= length d)%nat) [])
    by constructor.
  assert (H2 : zip_width (@nil (record Sample.frame)) <> 5%nat) by (simpl; lia).
  split; [exact H1|]. split; [exact H2|].
  apply (wrong_width_value_error Sample.frame Sample.actions_table [] Sample.rng_high
           H1 H2).
Defined.

(** One brake transition: 31 samples of class 6 come back. *)
Lemma class_counts_fixed_witness :
  read_data Sample.actions_table (file_pickle [Sample.transition 0%nat brake])
            Sample.rng_low
  = Ok ({| rows := repeat (Img 0%nat) 31; ndim4 := true |}, repeat 6 31) /\
  index Sample.actions_table accelerate = Ok 5 /\
  class_count (repeat 6 31) 6 = 31%nat.
Proof.
  assert (H1 : read_data Sample.actions_table
                 (file_pickle [Sample.transition 0%nat brake]) Sample.rng_low
               = Ok ({| rows := repeat (Img 0%nat) 31; ndim4 := true |}, repeat 6 31))
    by (vm_compute; reflexivity).
  assert (H2 : index Sample.actions_table accelerate = Ok 5) by reflexivity.
  split; [exact H1|]. split; [exact H2|].
  apply (class_counts_fixed Sample.frame Sample.actions_table
           [Sample.transition 0%nat brake] Sample.rng_low
           {| rows := repeat (Img 0%nat) 31; ndim4 := true |} (repeat 6 31) 5 6 H1 H2);
    lia.
Defined.

(** The three transitions under the generator that draws 0: the one
    accelerate sample goes. *)
Lemma accelerate_count_witness :
  read_data Sample.actions_table (file_pickle Sample.three) Sample.rng_low
  = Ok ({| rows := [Img 1%nat]; ndim4 := true |}, [1]) /\
  index Sample.actions_table accelerate = Ok 5 /\
  class_count [1] 5
  = length (filter exceeds_0_7
              (rand Sample.rng_low (occurrences Sample.actions_table 5 Sample.three))) /\
  (class_count [1%Z] 5%Z <= occurrences Sample.actions_table 5%Z Sample.three)%nat.
Proof.
  assert (H1 : read_data Sample.actions_table (file_pickle Sample.three) Sample.rng_low
               = Ok ({| rows := [Img 1%nat]; ndim4 := true |}, [1]))
    by (vm_compute; reflexivity).
  assert (H2 : index Sample.actions_table accelerate = Ok 5) by reflexivity.
  split; [exact H1|]. split; [exact H2|].
  apply (accelerate_count Sample.frame Sample.actions_table Sample.three Sample.rng_low
           {| rows := [Img 1%nat]; ndim4 := true |} [1] 5 H1 H2).
Defined.

(** The three transitions under the generator that keeps everything:
    the seven numbers printed add up to 2. *)
Lemma printed_counts_total_witness :
  read_data Sample.actions_table (file_pickle Sample.three) Sample.rng_high
  = Ok ({| rows := [Img 0%nat; Img 1%nat]; ndim4 := true |}, [5; 1]) /\
  list_sum (printed_counts Sample.actions_table [5; 1]) = printed_total [5; 1].
Proof.
  assert (H1 : read_data Sample.actions_table (file_pickle Sample.three) Sample.rng_high
               = Ok ({| rows := [Img 0%nat; Img 1%nat]; ndim4 := true |}, [5; 1]))
    by (vm_compute; reflexivity).
  split; [exact H1|].
  apply (printed_counts_total Sample.frame Sample.actions_table
           (file_pickle Sample.three) Sample.rng_high
           {| rows := [Img 0%nat; Img 1%nat]; ndim4 := true |} [5; 1] H1).
Defined.

(** With accelerate at 0 and at 2 in the enumeration, the accelerate
    sample is labelled 2 and stays, although every draw is 0. *)
Lemma repeated_accelerate_keeps_all_witness :
  read_data Sample.actions_twice (file_pickle Sample.three) Sample.rng_low
  = Ok ({| rows := [Img 1%nat; Img 0%nat]; ndim4 := true |}, [1; 2]) /\
  index Sample.actions_twice accelerate = Ok 0 /\
  nth_error Sample.actions_twice 2 = Some accelerate /\
  class_count [1; 2] 2
  = (occurrences Sample.actions_twice 2%Z Sample.three
     + 30 * rare_occurrences Sample.actions_twice 2%Z Sample.three)%nat.
Proof.
  assert (H1 : read_data Sample.actions_twice (file_pickle Sample.three) Sample.rng_low
               = Ok ({| rows := [Img 1%nat; Img 0%nat]; ndim4 := true |}, [1; 2]))
    by (vm_compute; reflexivity).
  assert (H2 : index Sample.actions_twice accelerate = Ok 0) by reflexivity.
  assert (H3 : nth_error Sample.actions_twice 2 = Some accelerate) by reflexivity.
  split; [exact H1|]. split; [exact H2|]. split; [exact H3|].
  apply (repeated_accelerate_keeps_all Sample.frame Sample.actions_twice Sample.three
           Sample.rng_low {| rows := [Img 1%nat; Img 0%nat]; ndim4 := true |} [1; 2]
           0 2%nat H1 H2); [simpl; lia | exact H3 | lia].
Defined.

(** Three samples: two for training, one for validation. *)
Lemma split_sizes_witness :
  split_datasets Sample.frame (fun s => s) (Sample.states3, [5; 6; 5])
  = Ok ([(Img 0%nat, 5); (Img 1%nat, 6)], [(Img 2%nat, 5)]) /\
  2 + 1 = 3 /\
  15 * 3 <= 100 * 1 < 15 * 3 + 100.
Proof.
  assert (H1 : split_datasets Sample.frame (fun s => s) (Sample.states3, [5; 6; 5])
               = Ok ([(Img 0%nat, 5); (Img 1%nat, 6)], [(Img 2%nat, 5)]))
    by (vm_compute; reflexivity).
  split; [exact H1|].
  pose proof (split_sizes Sample.frame (fun s => s) Sample.states3 [5; 6; 5]
                [(Img 0%nat, 5); (Img 1%nat, 6)] [(Img 2%nat, 5)]) as H.
  destruct H as (Ha & Hb & _); [reflexivity | simpl; lia | exact H1 |].
  split; [exact Ha | exact Hb].
Defined.


(** The network in training mode on a batch of two frames of 84 by 84
    pixels, the batch [summary] sends through it. *)
Lemma network_square_input_witness :
  forward_shape true (build_network Sample.actions_table) [2; 1; 84; 84]%nat
  = Some [2; 7]%nat.
Proof.
  exact (network_square_input true Sample.actions_table 2 1 84).
Defined.
